(** * cuppa: [build_with_location.base]

    A shallow embedding of [src/cuppa/build_with_location.py] and the
    properties of its dependency classes: option registration, location
    resolution, configuration assembly in [create], the constructor, and the
    per-variant object and library caches of [build_library_from_source]. *)

From Stdlib Require Import Ascii.
From stdpp Require Import gmap strings list fin_maps pretty.

Set Default Proof Using "Type".

(** ** Python values *)

(** A value that is either [None] or a [str]. *)
Abbreviation str_or_none := (option string).

(** Python truthiness of such a value: [None] and [''] are falsy. *)
Definition truthy (v : str_or_none) : bool :=
  match v with
  | Some (String _ _) => true
  | _ => false
  end.

(** The string held by a truthy value. *)
Definition as_str (v : str_or_none) : string := default "" v.

(** Truthiness of a list that may still be [None] (a class attribute before
    [create] has run). *)
Definition truthy_list {A} (v : option (list A)) : bool :=
  match v with
  | Some (_ :: _) => true
  | _ => false
  end.

(** [str(v)] *)
Definition str (v : str_or_none) : string := default "None" v.

Definition as_list {A} (v : option (list A)) : list A := default [] v.

(** ** Exceptions and outcomes *)

Inductive exn :=
| KeyError (key : string)
| ValueError (msg : string)
| LocationException (msg : string)
| OtherException (msg : string).

Inductive outcome (A : Type) :=
| Returns (a : A)
| Raises (e : exn).
Arguments Returns {A} a.
Arguments Raises {A} e.

(** ** The host build framework *)

(** Build nodes are opaque handles; every builder call of the host framework
    hands out a new one. *)
Definition node := nat.

(** [cuppa.location.Location]: only its accessors are used here. *)
Record Location := {
  local : string;
  local_folder : string;
  version : string;
  repository : string;
  branch : string;
  revisions : list string
}.

(** The build environment: command line options ([env.get_option]), the
    configuration keys ([env[key]]) and the recursive glob utility. A falsy
    configuration value is the empty string. *)
Record Env := {
  options : gmap string string;
  vars : gmap string string;
  RecursiveGlob : string → string → list string → list string
}.

Definition get_option (env : Env) (name : string) : str_or_none :=
  options env !! name.

(** What the module takes from outside the repository: [os.path] and the
    constructor of [cuppa.location.Location], which either returns a location
    or raises. [relpath] is [os.path.relpath] where it returns, that is on a
    path that is not empty; [rel_obj_path] below raises its [ValueError] on
    the empty one. *)
Class Host := {
  isabs : string → bool;
  join : string → string → string;
  expanduser : string → string;
  relpath : string → string → string;
  splitext : string → string * string;
  normpath : string → string;
  Location_new : Env → string → str_or_none → str_or_none → exn + Location
}.

(** ** Process-wide state *)

Inductive level := TRACE | DEBUG | WARN | ERROR.

(** What the module does to the outside world: log records and builder
    calls. A log record keeps the format string and its arguments (before
    [title] and colouring); a builder record keeps the arguments of the call
    and the node it returned. *)
Inductive event :=
| Log (lv : level) (fmt : string) (args : list string)
| Object (shared : bool) (obj_path source : string) (n : node)
| Library (shared : bool) (library_name : string) (objects : list node)
    (final_dir : string) (n : node)
| Install (dir : string) (library : node) (n : node).

(** The dictionaries of [base] are class attributes that no subclass
    overrides: one [_cached_locations], one [_prebuilt_objects] and one
    [_prebuilt_libraries] per process, shared by every dependency class. *)
Record world := {
  _cached_locations : gmap (string * str_or_none) Location;
  _prebuilt_objects : gmap string (gmap string (gmap string node));
  _prebuilt_libraries : gmap string (gmap string (gmap string node));
  next_node : node;
  events : list event
}.

Definition initial_world : world :=
  {| _cached_locations := ∅; _prebuilt_objects := ∅; _prebuilt_libraries := ∅;
     next_node := 0; events := [] |}.

(** ** A state and exception monad *)

Definition M (A : Type) : Type := world → world * outcome A.

Definition ret {A} (a : A) : M A := λ w, (w, Returns a).

Definition raise {A} (e : exn) : M A := λ w, (w, Raises e).

Definition bind {A B} (m : M A) (k : A → M B) : M B :=
  λ w, match m w with
       | (w', Returns a) => k a w'
       | (w', Raises e) => (w', Raises e)
       end.

Notation "x <- m ;; k" := (bind m (λ x, k))
  (at level 100, m at next level, right associativity,
   format "'[v' x  <-  m  ;;  '/' k ']'").
Notation "m ;;; k" := (bind m (λ _, k))
  (at level 100, right associativity, format "'[v' m  ;;;  '/' k ']'").

Definition emit (e : event) : M () :=
  λ w, ({| _cached_locations := _cached_locations w;
           _prebuilt_objects := _prebuilt_objects w;
           _prebuilt_libraries := _prebuilt_libraries w;
           next_node := next_node w;
           events := events w ++ [e] |}, Returns ()).

Definition logger (lv : level) (fmt : string) (args : list string) : M () :=
  emit (Log lv fmt args).

(** [env[key]]: a missing key raises [KeyError]. *)
Definition env_item (env : Env) (key : string) : M string :=
  match vars env !! key with
  | Some v => ret v
  | None => raise (KeyError key)
  end.

(** ** Dependency classes *)

(** The class attributes of a subclass of [base]. [_includes] and
    [_sys_includes] are [None] until [create] assigns a list. *)
Record base := {
  _name : string;
  _default_location : str_or_none;
  _default_include : str_or_none;
  _default_sys_include : str_or_none;
  _includes : option (list str_or_none);
  _sys_includes : option (list str_or_none);
  _extra_sub_path : str_or_none;
  _source_path : str_or_none;
  _linktype : str_or_none
}.

(** [location_dependency]: a new subclass of [base] with the defaults as
    class attributes. *)
Definition location_dependency (name : string)
    (location include sys_include extra_sub_path source_path linktype : str_or_none)
    : base :=
  {| _name := name;
     _default_location := location;
     _default_include := include;
     _default_sys_include := sys_include;
     _includes := None;
     _sys_includes := None;
     _extra_sub_path := extra_sub_path;
     _source_path := source_path;
     _linktype := linktype |}.

(** [base.add_options]: the keyword arguments of one [add_option] call. *)
Record option_decl := {
  flag : string;
  dest : string;
  type : string;
  nargs : nat;
  action : string;
  help : string
}.

(** [base.add_options]. The callback acts on a state of the caller's choice
    (an option parser, say); the method returns nothing but that state. *)
Definition add_options {S : Type} (cls : base)
    (add_option : option_decl → S → S) (s : S) : S :=
  let location_name := _name cls +:+ "-location" in
  let branch_name := _name cls +:+ "-branch" in
  let include_name := _name cls +:+ "-include" in
  let sys_include_name := _name cls +:+ "-sys-include" in
  let extra_sub_path_name := _name cls +:+ "-extra-sub-path" in
  let source_path_name := _name cls +:+ "-source-path" in
  let linktype_name := _name cls +:+ "-linktype" in
  let s := add_option
    {| flag := "--" +:+ location_name; dest := location_name;
       type := "string"; nargs := 1; action := "store";
       help := _name cls +:+ " location to build against" |} s in
  let s := add_option
    {| flag := "--" +:+ branch_name; dest := branch_name;
       type := "string"; nargs := 1; action := "store";
       help := _name cls +:+ " branch to build against. Providing a branch is optional" |} s in
  let s := add_option
    {| flag := "--" +:+ include_name; dest := include_name;
       type := "string"; nargs := 1; action := "store";
       help := _name cls +:+ " include sub-directory to be added to the include path. Optional" |} s in
  let s := add_option
    {| flag := "--" +:+ sys_include_name; dest := sys_include_name;
       type := "string"; nargs := 1; action := "store";
       help := _name cls +:+ " include sub-directory to be added to the system include path. Optional" |} s in
  let s := add_option
    {| flag := "--" +:+ extra_sub_path_name; dest := extra_sub_path_name;
       type := "string"; nargs := 1; action := "store";
       help := _name cls +:+ " extra (relative) sub path to locate the dependency. Optional" |} s in
  let s := add_option
    {| flag := "--" +:+ source_path_name; dest := source_path_name;
       type := "string"; nargs := 1; action := "store";
       help := _name cls +:+ " path to source files. Optional" |} s in
  let s := add_option
    {| flag := "--" +:+ linktype_name; dest := linktype_name;
       type := "string"; nargs := 1; action := "store";
       help := _name cls +:+ " linktype: static (default) or shared. Optional" |} s in
  s.

(** ** Dependency instances *)

(** The attributes [__init__] sets on an instance. [_source_path] is set
    only for a truthy argument; an instance without it inherits the class
    attribute. *)
Module Self.
Record t := {
  _location : Location;
  _includes : list string;
  _sys_includes : list string;
  _source_path : str_or_none;
  _linktype : string
}.
End Self.

(** [self._source_path]: the instance attribute when set, the class attribute
    otherwise. *)
Definition self_source_path (cls : base) (self : Self.t) : str_or_none :=
  match Self._source_path self with
  | Some p => Some p
  | None => _source_path cls
  end.

(** ** The node caches *)

Abbreviation node_cache := (gmap string (gmap string (gmap string node))).

(** [base.lazy_create_node]. The Python method returns the inner dictionary
    itself, which the caller then reads and writes in place; here the inner
    dictionary is addressed by its path [(name, variant_key)] in the cache. *)
Definition lazy_create_node (cls : base) (variant_key : string)
    (cached_nodes : node_cache) : node_cache :=
  let cached_nodes :=
    match cached_nodes !! _name cls with
    | None => <[_name cls := ∅]> cached_nodes
    | Some _ => cached_nodes
    end in
  let by_variant := default ∅ (cached_nodes !! _name cls) in
  match by_variant !! variant_key with
  | None => <[_name cls := <[variant_key := ∅]> by_variant]> cached_nodes
  | Some _ => cached_nodes
  end.

(** [cached_nodes[name][variant_key]] *)
Definition node_dict (cached_nodes : node_cache) (name variant_key : string)
    : gmap string node :=
  default ∅ (default ∅ (cached_nodes !! name) !! variant_key).

(** [cached_nodes[name][variant_key][key] = n] *)
Definition node_dict_set (cached_nodes : node_cache) (name variant_key key : string)
    (n : node) : node_cache :=
  <[name := <[variant_key := <[key := n]> (node_dict cached_nodes name variant_key)]>
              (default ∅ (cached_nodes !! name))]> cached_nodes.

Definition update_objects (f : node_cache → node_cache) : M () :=
  λ w, ({| _cached_locations := _cached_locations w;
           _prebuilt_objects := f (_prebuilt_objects w);
           _prebuilt_libraries := _prebuilt_libraries w;
           next_node := next_node w;
           events := events w |}, Returns ()).

Definition update_libraries (f : node_cache → node_cache) : M () :=
  λ w, ({| _cached_locations := _cached_locations w;
           _prebuilt_objects := _prebuilt_objects w;
           _prebuilt_libraries := f (_prebuilt_libraries w);
           next_node := next_node w;
           events := events w |}, Returns ()).

Definition prebuilt_object (name variant_key key : string) : M (option node) :=
  λ w, (w, Returns (node_dict (_prebuilt_objects w) name variant_key !! key)).

Definition prebuilt_library (name variant_key key : string) : M (option node) :=
  λ w, (w, Returns (node_dict (_prebuilt_libraries w) name variant_key !! key)).

(** A builder of the host framework: it returns a node nobody has seen
    before and leaves a record of the call. *)
Definition builder (record : node → event) : M node :=
  λ w, ({| _cached_locations := _cached_locations w;
           _prebuilt_objects := _prebuilt_objects w;
           _prebuilt_libraries := _prebuilt_libraries w;
           next_node := S (next_node w);
           events := events w ++ [record (next_node w)] |},
        Returns (next_node w)).

Definition cached_location (location_id : string * str_or_none) : M (option Location) :=
  λ w, (w, Returns (_cached_locations w !! location_id)).

Definition cache_location (location_id : string * str_or_none) (l : Location) : M () :=
  λ w, ({| _cached_locations := <[location_id := l]> (_cached_locations w);
           _prebuilt_objects := _prebuilt_objects w;
           _prebuilt_libraries := _prebuilt_libraries w;
           next_node := next_node w;
           events := events w |}, Returns ()).

Section with_host.
Context `{Host}.

(** [base.location_id] *)
Definition location_id (cls : base) (env : Env) : M (option (string * str_or_none)) :=
  let location := get_option env (_name cls +:+ "-location") in
  let branch := get_option env (_name cls +:+ "-branch") in
  let location :=
    if negb (truthy location) && truthy (_default_location cls)
    then _default_location cls else location in
  location <- (if negb (truthy location) && truthy branch
               then v <- env_item env "branch_root" ;; ret (Some v)
               else ret location) ;;
  location <- (if negb (truthy location) && truthy branch
               then v <- env_item env "thirdparty" ;; ret (Some v)
               else ret location) ;;
  if negb (truthy location) then
    logger DEBUG "No location specified for dependency [{}]. Dependency not available."
      [_name cls] ;;;
    ret None
  else
    ret (Some (expanduser (as_str location), branch)).

(** [base._get_location] *)
Definition _get_location (cls : base) (env : Env) : M (option Location) :=
  location_id <- location_id cls env ;;
  match location_id with
  | None => ret None
  | Some (location, branch) =>
    cached <- cached_location (location, branch) ;;
    match cached with
    | Some l => ret (Some l)
    | None =>
      match Location_new env location branch (_extra_sub_path cls) with
      | inr l =>
        cache_location (location, branch) l ;;;
        cached_location (location, branch)
      | inl (LocationException error) =>
        logger ERROR
          "Could not get location for [{}] at [{}] with branch [{}] and extra sub path [{}]. Failed with error [{}]"
          [_name cls; location; str branch; str (_extra_sub_path cls); error] ;;;
        ret None
      | inl e => raise e
      end
    end
  end.

(** The expression [os.path.isabs(p) and p or os.path.join(local, p)] of
    [__init__]. *)
Definition abs_or_local (location : Location) (p : string) : string :=
  if isabs p && truthy (Some p) then p else join (local location) p.

(** The two [for include in ...] loops of [__init__]. *)
Definition collect_includes (location : Location) (includes : list str_or_none)
    : list string :=
  foldl (λ acc include,
           if truthy include then acc ++ [abs_or_local location (as_str include)]
           else acc)
        [] includes.

(** [base.__init__] *)
Definition __init__ (env : Env) (location : Location)
    (includes sys_includes : list str_or_none) (source_path linktype : str_or_none)
    : Self.t :=
  let includes :=
    match includes, sys_includes with
    | [], [] => [Some (local location)]
    | _, _ => includes
    end in
  {| Self._location := location;
     Self._includes := collect_includes location includes;
     Self._sys_includes := collect_includes location sys_includes;
     Self._source_path :=
       if truthy source_path then Some (abs_or_local location (as_str source_path))
       else None;
     Self._linktype := if negb (truthy linktype) then "static" else as_str linktype |}.

Definition set_includes (cls : base) (v : option (list str_or_none)) : base :=
  {| _name := _name cls;
     _default_location := _default_location cls;
     _default_include := _default_include cls;
     _default_sys_include := _default_sys_include cls;
     _includes := v;
     _sys_includes := _sys_includes cls;
     _extra_sub_path := _extra_sub_path cls;
     _source_path := _source_path cls;
     _linktype := _linktype cls |}.

Definition set_sys_includes (cls : base) (v : option (list str_or_none)) : base :=
  {| _name := _name cls;
     _default_location := _default_location cls;
     _default_include := _default_include cls;
     _default_sys_include := _default_sys_include cls;
     _includes := _includes cls;
     _sys_includes := v;
     _extra_sub_path := _extra_sub_path cls;
     _source_path := _source_path cls;
     _linktype := _linktype cls |}.

Definition set_source_path (cls : base) (v : str_or_none) : base :=
  {| _name := _name cls;
     _default_location := _default_location cls;
     _default_include := _default_include cls;
     _default_sys_include := _default_sys_include cls;
     _includes := _includes cls;
     _sys_includes := _sys_includes cls;
     _extra_sub_path := _extra_sub_path cls;
     _source_path := v;
     _linktype := _linktype cls |}.

Definition set_linktype (cls : base) (v : str_or_none) : base :=
  {| _name := _name cls;
     _default_location := _default_location cls;
     _default_include := _default_include cls;
     _default_sys_include := _default_sys_include cls;
     _includes := _includes cls;
     _sys_includes := _sys_includes cls;
     _extra_sub_path := _extra_sub_path cls;
     _source_path := _source_path cls;
     _linktype := v |}.

(** The assignments [create] makes to the class attributes, in order. *)
Definition assemble (cls : base) (env : Env) : base :=
  let cls :=
    if negb (truthy_list (_includes cls)) then
      let include := get_option env (_name cls +:+ "-include") in
      set_includes cls (Some (if truthy include then [include] else []))
    else cls in
  let cls :=
    if negb (truthy_list (_sys_includes cls)) then
      let sys_include := get_option env (_name cls +:+ "-sys-include") in
      set_sys_includes cls (Some (if truthy sys_include then [sys_include] else []))
    else cls in
  let cls :=
    if truthy (_default_include cls)
    then set_includes cls (Some (as_list (_includes cls) ++ [_default_include cls]))
    else cls in
  let cls :=
    if truthy (_default_sys_include cls)
    then set_sys_includes cls
           (Some (as_list (_sys_includes cls) ++ [_default_sys_include cls]))
    else cls in
  let cls :=
    if negb (truthy (_source_path cls))
    then set_source_path cls (get_option env (_name cls +:+ "-source-path"))
    else cls in
  let cls :=
    if negb (truthy (_linktype cls))
    then set_linktype cls (get_option env (_name cls +:+ "-linktype"))
    else cls in
  cls.

(** [base.create]. The class is mutable: the call returns the class as it is
    afterwards together with the new instance, or [None]. *)
Definition create (cls : base) (env : Env) : M (base * option Self.t) :=
  location <- _get_location cls env ;;
  match location with
  | None => ret (cls, None)
  | Some location =>
    let cls := assemble cls env in
    ret (cls, Some (__init__ env location
                      (as_list (_includes cls)) (as_list (_sys_includes cls))
                      (_source_path cls) (_linktype cls)))
  end.

(** The path of the object file of a source, relative to the build
    directory, as lines 229 and 230 compute it when [os.path.relpath]
    returns: the key of the object cache. *)
Definition obj_key (local_dir obj_suffix source : string) : string :=
  let rel_path := relpath source local_dir in
  (splitext rel_path).1 +:+ obj_suffix.

(** Lines 229 and 230. [os.path.relpath] raises [ValueError] on an empty
    path; on the others it returns. *)
Definition rel_obj_path (local_dir obj_suffix source : string) : M string :=
  if bool_decide (source = "") then raise (ValueError "no path specified")
  else ret (obj_key local_dir obj_suffix source).

(** The body of the [for source in sources] loop of
    [build_library_from_source]: the node of one source, built unless cached. *)
Definition object_for (cls : base) (variant_key local_dir build_dir obj_suffix : string)
    (shared : bool) (source : string) : M node :=
  rel_obj_path <- rel_obj_path local_dir obj_suffix source ;;
  let obj_path := join build_dir rel_obj_path in
  cached <- prebuilt_object (_name cls) variant_key rel_obj_path ;;
  match cached with
  | None =>
    n <- builder (Object shared obj_path source) ;;
    update_objects (λ c, node_dict_set c (_name cls) variant_key rel_obj_path n)
  | Some _ => ret ()
  end ;;;
  stored <- prebuilt_object (_name cls) variant_key rel_obj_path ;;
  match stored with
  | Some n => ret n
  | None => raise (KeyError rel_obj_path)
  end.

(** The loop itself, appending to [objects]. *)
Fixpoint objects_for (cls : base) (variant_key local_dir build_dir obj_suffix : string)
    (shared : bool) (sources : list string) (objects : list node) : M (list node) :=
  match sources with
  | [] => ret objects
  | source :: sources =>
    n <- object_for cls variant_key local_dir build_dir obj_suffix shared source ;;
    objects_for cls variant_key local_dir build_dir obj_suffix shared sources
      (objects ++ [n])
  end.

(** Lines 236 to 244: the library of [objects], built unless cached. *)
Definition library_for (cls : base) (env : Env) (variant_key library_name linktype : string)
    (final_dir : string) (objects : list node) : M (option node) :=
  cached <- prebuilt_library (_name cls) variant_key linktype ;;
  match cached with
  | None =>
    library <- builder (Library (bool_decide (linktype = "shared"))
                          library_name objects final_dir) ;;
    library <- (if bool_decide (linktype = "shared") then
                  abs_final_dir <- env_item env "abs_final_dir" ;;
                  builder (Install abs_final_dir library)
                else ret library) ;;
    update_libraries (λ c, node_dict_set c (_name cls) variant_key linktype library)
  | Some library =>
    logger TRACE "using existing library = [{}]" [pretty library]
  end ;;;
  stored <- prebuilt_library (_name cls) variant_key linktype ;;
  match stored with
  | Some n => ret (Some n)
  | None => raise (KeyError linktype)
  end.

(** Lines 195 to 234: everything between the early return and the library. *)
Definition objects_of (cls : base) (self : Self.t) (env : Env)
    (sources : option (list string)) (linktype : string)
    : M (string * string * list node) :=
  variant_key <- env_item env "tool_variant_dir" ;;
  update_objects (lazy_create_node cls variant_key) ;;;
  update_libraries (lazy_create_node cls variant_key) ;;;
  let local_dir := local (Self._location self) in
  let local_folder := local_folder (Self._location self) in
  build_root <- env_item env "build_root" ;;
  tool_variant_working_dir <- env_item env "tool_variant_working_dir" ;;
  let build_dir := join (join build_root local_folder) tool_variant_working_dir in
  final_dir <- env_item env "final_dir" ;;
  let final_dir := normpath (join build_dir final_dir) in
  logger DEBUG "build_dir for [{}] = [{}]" [_name cls; build_dir] ;;;
  logger DEBUG "final_dir for [{}] = [{}]" [_name cls; final_dir] ;;;
  obj_suffix <- env_item env "OBJSUFFIX" ;;
  obj_suffix <- (if bool_decide (linktype = "shared")
                 then env_item env "SHOBJSUFFIX" else ret obj_suffix) ;;
  sources <- (if negb (truthy_list sources) then
                build_dir' <- env_item env "build_dir" ;;
                ret (RecursiveGlob env "*.cpp" (as_str (self_source_path cls self))
                       [build_dir'])
              else ret (as_list sources)) ;;
  objects <- objects_for cls variant_key local_dir build_dir obj_suffix
               (bool_decide (linktype = "shared")) sources [] ;;
  ret (variant_key, final_dir, objects).

(** [base.build_library_from_source]; [cls] is the class of [self] as it is
    at the time of the call. *)
Definition build_library_from_source (cls : base) (self : Self.t) (env : Env)
    (sources : option (list string)) (library_name linktype : str_or_none)
    : M (option node) :=
  if negb (truthy (self_source_path cls self)) && negb (truthy_list sources) then
    logger WARN "Attempting to build library when source path is None" [] ;;;
    ret None
  else
    let library_name :=
      if negb (truthy library_name) then _name cls else as_str library_name in
    let linktype :=
      if negb (truthy linktype) then Self._linktype self else as_str linktype in
    r <- objects_of cls self env sources linktype ;;
    let '(variant_key, final_dir, objects) := r in
    library_for cls env variant_key library_name linktype final_dir objects.

End with_host.

(** ** A POSIX host

    [posixpath] as far as the module uses it, for running the model on
    concrete paths. [HOME] and [cwd] stand for the process environment; the
    password database knows no user, so that [~user] stays as it is. *)
Module posixpath.

Definition sep : ascii := "/"%char.

Definition chars (s : string) : list ascii := String.list_ascii_of_string s.
Definition text (l : list ascii) : string := String.string_of_list_ascii l.

Definition startswith (p s : string) : bool := String.prefix p s.

Fixpoint take_while {A} (f : A → bool) (l : list A) : list A :=
  match l with
  | x :: l => if f x then x :: take_while f l else []
  | [] => []
  end.

Fixpoint drop_while {A} (f : A → bool) (l : list A) : list A :=
  match l with
  | x :: l' => if f x then drop_while f l' else l
  | [] => []
  end.

Definition endswith_sep (s : string) : bool :=
  match last (chars s) with
  | Some c => bool_decide (c = sep)
  | None => false
  end.

Definition isabs (s : string) : bool := startswith "/" s.

Definition join (a b : string) : string :=
  if startswith "/" b then b
  else if bool_decide (a = "") || endswith_sep a then a +:+ b
  else a +:+ "/" +:+ b.

(** [s.split('/')] *)
Fixpoint split_chars (l cur : list ascii) : list (list ascii) :=
  match l with
  | [] => [cur]
  | c :: l => if bool_decide (c = sep) then cur :: split_chars l []
              else split_chars l (cur ++ [c])
  end.

Definition split (s : string) : list string := text <$> split_chars (chars s) [].

(** ['/'.join(comps)] *)
Fixpoint unsplit (comps : list string) : string :=
  match comps with
  | [] => ""
  | [c] => c
  | c :: comps => c +:+ "/" +:+ unsplit comps
  end.

Definition rstrip_sep (s : string) : string :=
  text (reverse (drop_while (λ c, bool_decide (c = sep)) (reverse (chars s)))).

Definition expanduser (HOME : string) (path : string) : string :=
  if negb (startswith "~" path) then path
  else
    let rest := drop 1 (chars path) in
    let name := take_while (λ c, negb (bool_decide (c = sep))) rest in
    match name with
    | [] =>
      let r := rstrip_sep HOME +:+ text rest in
      if bool_decide (r = "") then "/" else r
    | _ => path
    end.

Definition normpath (path : string) : string :=
  if bool_decide (path = "") then "." else
  let initial_slashes :=
    if startswith "/" path then
      if startswith "//" path && negb (startswith "///" path) then 2 else 1
    else 0 in
  let new_comps :=
    foldl (λ new_comps comp,
             if bool_decide (comp = "") || bool_decide (comp = ".") then new_comps
             else if negb (bool_decide (comp = ".."))
                     || (bool_decide (initial_slashes = 0) && bool_decide (new_comps = []))
                     || bool_decide (last new_comps = Some "..")
                  then new_comps ++ [comp]
                  else take (length new_comps - 1) new_comps)
          [] (split path) in
  let path := text (replicate initial_slashes sep) +:+ unsplit new_comps in
  if bool_decide (path = "") then "." else path.

Definition abspath (cwd path : string) : string :=
  normpath (if isabs path then path else join cwd path).

Fixpoint commonprefix (a b : list string) : nat :=
  match a, b with
  | x :: a, y :: b => if bool_decide (x = y) then S (commonprefix a b) else 0
  | _, _ => 0
  end.

Definition relpath (cwd path start : string) : string :=
  let start_list := filter (λ x, x ≠ "") (split (abspath cwd start)) in
  let path_list := filter (λ x, x ≠ "") (split (abspath cwd path)) in
  let i := commonprefix start_list path_list in
  let rel_list := replicate (length start_list - i) ".." ++ drop i path_list in
  match rel_list with
  | [] => "."
  | c :: rest => foldl join c rest
  end.

(** [genericpath._splitext] with [sep = '/'] and [extsep = '.']: the
    extension starts at the last dot of the last component, unless only dots
    come before it. *)
Definition splitext (p : string) : string * string :=
  let comps := split_chars (chars p) [] in
  let base := default [] (last comps) in
  let dir := take (length (chars p) - length base) (chars p) in
  let rbase := reverse base in
  let ext := reverse (take_while (λ c, negb (bool_decide (c = "."%char))) rbase) in
  let stem := take (length base - length ext - 1) base in
  if bool_decide (length ext < length base)
     && negb (forallb (λ c, bool_decide (c = "."%char)) stem)
  then (text (dir ++ stem), text ("."%char :: ext))
  else (p, "").

End posixpath.

(** A POSIX host whose location subsystem is [new]. *)
Definition posix (HOME cwd : string)
    (new : Env → string → str_or_none → str_or_none → exn + Location) : Host :=
  {| isabs := posixpath.isabs;
     join := posixpath.join;
     expanduser := posixpath.expanduser HOME;
     relpath := posixpath.relpath cwd;
     splitext := posixpath.splitext;
     normpath := posixpath.normpath;
     Location_new := new |}.

(** ** Vocabulary of the statements *)

(** The suffixes of the option names, in the order of registration. *)
Definition option_suffixes : list string :=
  ["-location"; "-branch"; "-include"; "-sys-include"; "-extra-sub-path";
   "-source-path"; "-linktype"].

(** An [add_option] callback that only records its calls. *)
Definition record_option (d : option_decl) (calls : list option_decl)
    : list option_decl :=
  calls ++ [d].

(** The dependency class of Boost with no defaults, and one with a default
    location and a default include directory. *)
Definition boost : base :=
  location_dependency "boost" None None None None None None.

Definition boost_with_include : base :=
  location_dependency "boost" (Some "/opt/boost") (Some "include") None None None None.

(** An environment without a glob utility to speak of. *)
Definition make_env (opts vs : list (string * string)) : Env :=
  {| options := list_to_map opts; vars := list_to_map vs;
     RecursiveGlob := λ _ _ _, [] |}.

(** A location that resolved to the directory [dir]. *)
Definition location_at (dir folder : string) : Location :=
  {| local := dir; local_folder := folder; version := "1.0"; repository := dir;
     branch := ""; revisions := [] |}.

(** A location subsystem that knows local directories only: the location is
    its own local path. *)
Definition local_directories (env : Env) (location : string)
    (branch extra_sub_path : str_or_none) : exn + Location :=
  inr (location_at location "local").

(** A location subsystem that is down. *)
Definition unreachable (env : Env) (location : string)
    (branch extra_sub_path : str_or_none) : exn + Location :=
  inl (LocationException "unreachable").

Definition posix_host : Host := posix "/home/dev" "/work" local_directories.

(** One call of [build_library_from_source]: the class as it is at the time
    of the call, the instance and the arguments. *)
Record call := {
  c_cls : base;
  c_self : Self.t;
  c_env : Env;
  c_sources : option (list string);
  c_library_name : str_or_none;
  c_linktype : str_or_none
}.

(** The configuration keys [build_library_from_source] may read. *)
Definition build_keys : list string :=
  ["tool_variant_dir"; "build_root"; "tool_variant_working_dir"; "final_dir";
   "OBJSUFFIX"; "SHOBJSUFFIX"; "build_dir"; "abs_final_dir"].

(** The environment defines all of them. *)
Definition env_complete (env : Env) : Prop :=
  ∀ key, key ∈ build_keys → is_Some (vars env !! key).

Definition env_var (env : Env) (key : string) : string :=
  default "" (vars env !! key).

(** The call has something to build: it passes the early return. *)
Definition buildable (c : call) : Prop :=
  truthy (self_source_path (c_cls c) (c_self c)) || truthy_list (c_sources c) = true.

(** The link type that is in force in the call. *)
Definition call_linktype (c : call) : string :=
  if negb (truthy (c_linktype c)) then Self._linktype (c_self c)
  else as_str (c_linktype c).

Definition call_variant (c : call) : string := env_var (c_env c) "tool_variant_dir".

(** The sources the call compiles: those given, or else those found. *)
Definition call_sources (c : call) : list string :=
  if truthy_list (c_sources c) then as_list (c_sources c)
  else RecursiveGlob (c_env c) "*.cpp"
         (as_str (self_source_path (c_cls c) (c_self c)))
         [env_var (c_env c) "build_dir"].

(** Every source of the call has a path: none is the empty string. *)
Definition valid_sources (c : call) : Prop := "" ∉ call_sources c.

Definition call_obj_suffix (c : call) : string :=
  if bool_decide (call_linktype c = "shared") then env_var (c_env c) "SHOBJSUFFIX"
  else env_var (c_env c) "OBJSUFFIX".

(** The builder records among the events. *)
Definition is_library (e : event) : bool :=
  match e with Library _ _ _ _ _ => true | _ => false end.

Definition is_object (e : event) : bool :=
  match e with Object _ _ _ _ => true | _ => false end.

(** How often the library builder was called in a stretch of events. *)
Definition library_calls (evs : list event) : nat :=
  length (List.filter is_library evs).

(** What happened between two states of the same run. *)
Definition new_events (w w' : world) : list event :=
  drop (length (events w)) (events w').

(** Every entry of the cache [c] is an entry of [c']. *)
Definition cache_le (c c' : node_cache) : Prop :=
  ∀ name variant_key key n,
    node_dict c name variant_key !! key = Some n →
    node_dict c' name variant_key !! key = Some n.

(** Both node caches have only grown from [w] to [w']. *)
Definition extends (w w' : world) : Prop :=
  cache_le (_prebuilt_objects w) (_prebuilt_objects w')
  ∧ cache_le (_prebuilt_libraries w) (_prebuilt_libraries w').

(** A computation under which the caches only grow, whatever its outcome. *)
Definition growing {A} (m : M A) : Prop := ∀ w, extends w (m w).1.

Section vocabulary.
Context `{Host}.

(** [x] is what [__init__] stores for some truthy entry of [supplied]: the
    entry itself when it is absolute, its join with the local path of
    [location] when it is relative. *)
Definition derived_from (location : Location) (supplied : list str_or_none)
    (x : string) : Prop :=
  ∃ p, Some p ∈ supplied ∧ p ≠ ""
       ∧ ((isabs p = true ∧ x = p)
          ∨ (isabs p = false ∧ x = join (local location) p)).

(** The key of the object cache under which the call files [source]. *)
Definition object_key (c : call) (source : string) : string :=
  obj_key (local (Self._location (c_self c))) (call_obj_suffix c) source.

Definition run_call (c : call) : M (option node) :=
  build_library_from_source (c_cls c) (c_self c) (c_env c) (c_sources c)
    (c_library_name c) (c_linktype c).

(** The state after a series of calls, whatever their outcomes. *)
Definition run_calls (cs : list call) (w : world) : world :=
  foldl (λ w c, (run_call c w).1) w cs.

End vocabulary.

(** A complete environment for the variant [variant]. *)
Definition build_env (variant : string) : Env :=
  make_env []
    [("tool_variant_dir", variant); ("build_root", "_build");
     ("tool_variant_working_dir", variant +:+ "/working");
     ("final_dir", "../final"); ("OBJSUFFIX", ".o"); ("SHOBJSUFFIX", ".os");
     ("build_dir", "_build"); ("abs_final_dir", "/work/_build/final")].

(** An instance of the Boost dependency, and calls that build three of its
    sources as a shared library for a variant. *)
Definition boost_instance : Self.t :=
  @__init__ posix_host (make_env [] []) (location_at "/opt/boost" "boost")
    [] [] None (Some "shared").

Definition boost_sources : list string :=
  ["/opt/boost/libs/system/src/error_code.cpp";
   "/opt/boost/libs/filesystem/src/path.cpp";
   "/opt/boost/libs/filesystem/src/operations.cpp"].

Definition boost_call (variant : string) (sources : list string) : call :=
  {| c_cls := boost; c_self := boost_instance; c_env := build_env variant;
     c_sources := Some sources; c_library_name := None; c_linktype := None |}.

(** The truthy entries of a list of paths, in order. *)
Definition kept (supplied : list str_or_none) : list string :=
  omap (λ v, if truthy v then v else None) supplied.

(** ** [LibraryMethod] *)

(** The callable that [LibraryMethod] wraps around an instance. The
    environment is a mutable object that [update_env] changes in place; here
    the callback returns the environment as it leaves it. *)
Module LibraryMethod.

Record t := {
  _location_dependency : Self.t;
  _update_env : Env → Env;
  _sources : option (list string);
  _library_name : str_or_none;
  _linktype : str_or_none
}.

(** [LibraryMethod.__init__] *)
Definition __init__ (location_dependency : Self.t) (update_env : Env → Env)
    (sources : option (list string)) (library_name linktype : str_or_none) : t :=
  {| _location_dependency := location_dependency;
     _update_env := update_env;
     _sources := sources;
     _library_name := library_name;
     _linktype := linktype |}.

Section with_host.
Context `{Host}.


End with_host.
End LibraryMethod.

(** ** More vocabulary *)





Definition is_builder (e : event) : bool :=
  match e with Log _ _ _ => false | _ => true end.

(** The dictionaries of every name and variant other than [(name, vk)] are
    in [w'] what they are in [w]. *)
Definition same_elsewhere (name vk : string) (w w' : world) : Prop :=
  ∀ name' vk', (name', vk') ≠ (name, vk) →
    node_dict (_prebuilt_objects w') name' vk' = node_dict (_prebuilt_objects w) name' vk'
    ∧ node_dict (_prebuilt_libraries w') name' vk'
      = node_dict (_prebuilt_libraries w) name' vk'.

(** A computation that, whatever its outcome, changes the node caches under
    [(name, vk)] only. *)
Definition confined {A} (name vk : string) (m : M A) : Prop :=
  ∀ w, same_elsewhere name vk w (m w).1.

(** From [w] to [w'] no builder has run and no cache entry has changed:
    only log records were added. *)
Definition nothing_built (w w' : world) : Prop :=
  (∀ name vk,
     node_dict (_prebuilt_objects w') name vk = node_dict (_prebuilt_objects w) name vk
     ∧ node_dict (_prebuilt_libraries w') name vk
       = node_dict (_prebuilt_libraries w) name vk)
  ∧ next_node w' = next_node w
  ∧ ∃ evs, events w' = events w ++ evs ∧ Forall (λ e, is_builder e = false) evs.

(** A computation that builds nothing, and one that has built nothing when
    it raises [KeyError]. *)
Definition idle {A} (m : M A) : Prop := ∀ w, nothing_built w (m w).1.

Definition idle_when_raising {A} (m : M A) : Prop :=
  ∀ w key, (m w).2 = Raises (KeyError key) → nothing_built w (m w).1.

(** A computation that raises nothing but exceptions of the kind [P]. *)
Definition raises_only {A} (P : exn → Prop) (m : M A) : Prop :=
  ∀ w e, (m w).2 = Raises e → P e.

(** [KeyError] for a configuration key that [env] does not define. *)
Definition missing_key (env : Env) (e : exn) : Prop :=
  ∃ key, e = KeyError key ∧ key ∈ build_keys ∧ vars env !! key = None.

(** What a call may raise: that, and the [ValueError] of a source without a
    path. *)
Definition build_exception (c : call) (e : exn) : Prop :=
  missing_key (c_env c) e
  ∨ (e = ValueError "no path specified" ∧ "" ∈ call_sources c).

Section more_vocabulary.
Context `{Host}.




End more_vocabulary.

(** A call for three sources of Boost in the environment [env]. *)
Definition boost_call_in (env : Env) : call :=
  {| c_cls := boost; c_self := boost_instance; c_env := env;
     c_sources := Some boost_sources; c_library_name := None; c_linktype := None |}.

(** An environment that stops short of the object suffix. *)
Definition env_without_suffix : Env :=
  make_env []
    [("tool_variant_dir", "gcc/release"); ("build_root", "_build");
     ("tool_variant_working_dir", "gcc/release/working"); ("final_dir", "../final")].

(** An environment that lacks only [abs_final_dir]. *)
Definition env_without_abs_final_dir (variant : string) : Env :=
  make_env []
    [("tool_variant_dir", variant); ("build_root", "_build");
     ("tool_variant_working_dir", variant +:+ "/working");
     ("final_dir", "../final"); ("OBJSUFFIX", ".o"); ("SHOBJSUFFIX", ".os");
     ("build_dir", "_build")].

(** Run a monadic computation as far as the known truth values allow. *)
Ltac settle :=
  unfold bind, ret, raise;
  repeat first
    [ progress cbn -[truthy]
    | match goal with Ht : truthy _ = _ |- _ => rewrite Ht end ].

Example posix_join : posixpath.join "/opt/boost" "include" = "/opt/boost/include"
  ∧ posixpath.join "/opt/boost/" "include" = "/opt/boost/include"
  ∧ posixpath.join "/opt/boost" "/usr/include" = "/usr/include"
  ∧ posixpath.join "" "include" = "include".
Proof. vm_compute. done. Qed.

Example posix_normpath : posixpath.normpath "/a/b/../c/./d//" = "/a/c/d"
  ∧ posixpath.normpath "" = "." ∧ posixpath.normpath "//a" = "//a"
  ∧ posixpath.normpath "///a" = "/a" ∧ posixpath.normpath "../a/.." = ".."
  ∧ posixpath.normpath "a/.." = "." ∧ posixpath.normpath "/.." = "/".
Proof. vm_compute. done. Qed.

Example posix_relpath :
  posixpath.relpath "/" "/opt/boost/libs/system/src/error_code.cpp" "/opt/boost"
  = "libs/system/src/error_code.cpp"
  ∧ posixpath.relpath "/" "/a/b" "/a/c/d" = "../../b"
  ∧ posixpath.relpath "/w" "x/y" "/w" = "x/y"
  ∧ posixpath.relpath "/" "/a" "/a" = ".".
Proof. vm_compute. done. Qed.

Example posix_splitext : posixpath.splitext "src/a.cpp" = ("src/a", ".cpp")
  ∧ posixpath.splitext ".bashrc" = (".bashrc", "")
  ∧ posixpath.splitext "a.b/c" = ("a.b/c", "")
  ∧ posixpath.splitext "a.tar.gz" = ("a.tar", ".gz")
  ∧ posixpath.splitext "d/..x.y" = ("d/..x", ".y")
  ∧ posixpath.splitext "x." = ("x", ".").
Proof. vm_compute. done. Qed.

Example posix_expanduser : posixpath.expanduser "/home/dev/" "~/boost" = "/home/dev/boost"
  ∧ posixpath.expanduser "/home/dev" "/opt/boost" = "/opt/boost"
  ∧ posixpath.expanduser "/home/dev" "~" = "/home/dev"
  ∧ posixpath.expanduser "/home/dev" "~root/x" = "~root/x".
Proof. vm_compute. done. Qed.

(** ** [add_options] *)

Lemma option_suffixes_NoDup : NoDup option_suffixes.
Proof. apply (bool_decide_unpack _). vm_compute. done. Qed.

(** C7 read literally: that the options registered are six in number fails
    already for the class of Boost. *)
Lemma add_options_not_six : length (add_options boost record_option []) ≠ 6.
Proof. vm_compute. lia. Qed.

(** C7 (as amended): for every dependency name, [add_options] calls the
    callback exactly seven times, once for each of location, branch, include,
    sys-include, extra-sub-path, source-path and linktype, in this order; the
    flags are [--<name><suffix>], pairwise different, each a string option
    with one argument that is stored under the flag's name without the
    dashes; and whatever the callback is, the method does nothing but make
    these seven calls and returns no value beside the callback's state. *)
Theorem add_options_seven (cls : base) :
  let calls := add_options cls record_option [] in
  length calls = 7
  ∧ flag <$> calls = (λ sfx, "--" +:+ _name cls +:+ sfx) <$> option_suffixes
  ∧ NoDup (flag <$> calls)
  ∧ (∀ d, d ∈ calls →
       flag d = "--" +:+ dest d ∧ type d = "string" ∧ nargs d = 1
       ∧ action d = "store")
  ∧ (∀ (S : Type) (add_option : option_decl → S → S) (s : S),
       add_options cls add_option s = foldl (λ s d, add_option d s) s calls).
Proof.
  cbn zeta. split_and!.
  - done.
  - done.
  - change (flag <$> add_options cls record_option [])
      with ((λ sfx, "--" +:+ _name cls +:+ sfx) <$> option_suffixes).
    apply NoDup_fmap_2; [| apply option_suffixes_NoDup].
    intros a b Hab. by do 2 apply String.app_inj in Hab.
  - intros d Hd. unfold add_options, record_option in Hd. simpl in Hd.
    repeat (apply elem_of_cons in Hd as [-> | Hd]; [done |]).
    by apply elem_of_nil in Hd.
  - done.
Qed.

Lemma add_options_seven_witness :
  let calls := add_options boost record_option [] in
  let d := {| flag := "--boost-linktype"; dest := "boost-linktype"; type := "string";
              nargs := 1; action := "store";
              help := "boost linktype: static (default) or shared. Optional" |} in
  d ∈ calls ∧ flag d = "--" +:+ dest d ∧ type d = "string" ∧ nargs d = 1
  ∧ action d = "store".
Proof.
  cbn zeta. split.
  - apply list_elem_of_In. vm_compute. tauto.
  - pose proof (add_options_seven boost) as (_ & _ & _ & Hall & _).
    apply Hall. apply list_elem_of_In. vm_compute. tauto.
Defined.

(** ** [__init__] *)

Section init.
Context `{Host}.

Lemma truthy_Some (p : string) : truthy (Some p) = true ↔ p ≠ "".
Proof. destruct p; simpl; split; congruence. Qed.

Lemma truthy_as_str (v : str_or_none) : truthy v = true → v = Some (as_str v).
Proof. destruct v as [[|]|]; simpl; congruence. Qed.

Lemma abs_or_local_abs location p :
  isabs p = true → p ≠ "" → abs_or_local location p = p.
Proof.
  intros Habs Hp. unfold abs_or_local.
  apply truthy_Some in Hp. by rewrite Habs, Hp.
Qed.

Lemma abs_or_local_rel location p :
  isabs p = false → abs_or_local location p = join (local location) p.
Proof. intros Habs. unfold abs_or_local. by rewrite Habs. Qed.

Lemma collect_includes_acc location includes acc :
  foldl (λ acc include,
           if truthy include then acc ++ [abs_or_local location (as_str include)]
           else acc) acc includes
  = acc ++ (abs_or_local location <$> kept includes).
Proof.
  revert acc. induction includes as [|v includes IH]; intros acc; simpl.
  - by rewrite app_nil_r.
  - rewrite IH. unfold kept. simpl. destruct (truthy v) eqn:Hv.
    + rewrite (truthy_as_str v Hv) at 2. simpl. by rewrite <- app_assoc.
    + destruct v; done.
Qed.

Lemma kept_singleton (p : string) : p ≠ "" → kept [Some p] = [p].
Proof. intros Hp. destruct p; done. Qed.

(** The loops of [__init__] keep the truthy entries, in order, each made
    absolute. *)
Lemma collect_includes_kept location includes :
  collect_includes location includes = abs_or_local location <$> kept includes.
Proof. unfold collect_includes. by rewrite collect_includes_acc. Qed.

Lemma elem_of_kept supplied p : p ∈ kept supplied ↔ Some p ∈ supplied ∧ p ≠ "".
Proof.
  unfold kept. rewrite list_elem_of_omap. split.
  - intros (v & Hv & Hp). destruct (truthy v) eqn:Ht; [|done]. subst v.
    by apply truthy_Some in Ht.
  - intros [Hin Hp]. exists (Some p). split; [done |].
    apply truthy_Some in Hp. by rewrite Hp.
Qed.

Lemma collect_includes_derived location supplied x :
  x ∈ collect_includes location supplied → derived_from location supplied x.
Proof.
  rewrite collect_includes_kept. intros (p & -> & Hp)%list_elem_of_fmap.
  apply elem_of_kept in Hp as [Hin Hp]. exists p. split_and!; [done.. |].
  destruct (isabs p) eqn:Habs.
  - left. by rewrite abs_or_local_abs.
  - right. by rewrite abs_or_local_rel.
Qed.

(** C9 (as amended): an instance made with empty [includes] and empty
    [sys_includes] has the local path of its location as its only include
    path, and no system include path, whenever that local path is a
    non-empty absolute path. *)
Theorem init_default_includes env location source_path linktype :
  isabs (local location) = true →
  local location ≠ "" →
  Self._includes (__init__ env location [] [] source_path linktype)
    = [local location]
  ∧ Self._sys_includes (__init__ env location [] [] source_path linktype) = [].
Proof.
  intros Habs Hne. unfold __init__. cbn [Self._includes Self._sys_includes].
  split; [|done].
  rewrite collect_includes_kept, kept_singleton by done.
  cbn [fmap list_fmap]. by rewrite abs_or_local_abs.
Qed.

(** What the default is for the other locations: a relative local path is
    joined with itself, an empty one is dropped. *)
Lemma init_default_includes_other env location source_path linktype :
  (isabs (local location) = false → local location ≠ "" →
   Self._includes (__init__ env location [] [] source_path linktype)
     = [join (local location) (local location)])
  ∧ (local location = "" →
     Self._includes (__init__ env location [] [] source_path linktype) = []).
Proof.
  unfold __init__. cbn [Self._includes]. rewrite collect_includes_kept. split.
  - intros Habs Hne. rewrite kept_singleton by done. cbn [fmap list_fmap].
    by rewrite abs_or_local_rel.
  - by intros ->.
Qed.

(** C10 (as amended): the system include paths of an instance are the truthy
    entries of [sys_includes], in order, each unchanged when absolute and
    joined with the local path of the location when relative; empty and
    [None] entries are dropped. The same holds of the include paths and
    [includes] unless both supplied lists are empty; then the include paths
    derive in this way from the local path of the location as the only
    entry. *)
Theorem init_includes_derived env location includes sys_includes source_path linktype :
  let self := __init__ env location includes sys_includes source_path linktype in
  Self._sys_includes self = abs_or_local location <$> kept sys_includes
  ∧ (∀ x, x ∈ Self._sys_includes self → derived_from location sys_includes x)
  ∧ (includes ≠ [] ∨ sys_includes ≠ [] →
     Self._includes self = abs_or_local location <$> kept includes
     ∧ ∀ x, x ∈ Self._includes self → derived_from location includes x)
  ∧ (includes = [] → sys_includes = [] →
     ∀ x, x ∈ Self._includes self →
          derived_from location [Some (local location)] x).
Proof.
  cbn zeta. split_and!.
  - apply collect_includes_kept.
  - intros x. apply collect_includes_derived.
  - intros Hne.
    assert (Self._includes
              (__init__ env location includes sys_includes source_path linktype)
            = collect_includes location includes) as ->.
    { destruct includes, sys_includes; try done. by destruct Hne. }
    split; [apply collect_includes_kept | intros x; apply collect_includes_derived].
  - intros -> -> x. apply collect_includes_derived.
Qed.

End init.

(** C9 read literally fails at a location whose local path is relative: the
    include path is then the local path joined with itself. *)
Lemma init_default_includes_relative :
  let location := location_at "deps/boost" "boost" in
  let self := @__init__ posix_host (make_env [] []) location [] [] None None in
  Self._includes self = ["deps/boost/deps/boost"]
  ∧ Self._includes self ≠ [local location].
Proof. vm_compute. split; [done | discriminate]. Qed.

Lemma init_default_includes_witness :
  let location := location_at "/opt/boost" "boost" in
  let self := @__init__ posix_host (make_env [] []) location [] [] None None in
  Self._includes self = ["/opt/boost"] ∧ Self._sys_includes self = [].
Proof.
  apply (@init_default_includes posix_host (make_env [] [])
           (location_at "/opt/boost" "boost") None None);
    [reflexivity | discriminate].
Defined.

(** C10 read literally fails when nothing is supplied: the stored include
    path is the local path of the location, which derives from no supplied
    entry. *)
Lemma init_includes_not_supplied :
  let location := location_at "/opt/boost" "boost" in
  let self := @__init__ posix_host (make_env [] []) location [] [] None None in
  "/opt/boost" ∈ Self._includes self
  ∧ ¬ @derived_from posix_host location [] "/opt/boost".
Proof.
  split.
  - vm_compute. apply list_elem_of_here.
  - intros (p & Hp & _). by apply elem_of_nil in Hp.
Qed.

Lemma init_includes_derived_witness :
  let location := location_at "/opt/boost" "boost" in
  let includes := [Some "include"; None; Some ""; Some "/usr/include"] in
  let self := @__init__ posix_host (make_env [] []) location includes [] None None in
  Self._includes self = ["/opt/boost/include"; "/usr/include"]
  ∧ (∀ x, x ∈ Self._includes self → @derived_from posix_host location includes x)
  ∧ (∀ x, x ∈ Self._includes
              (@__init__ posix_host (make_env [] []) location [] [] None None) →
          @derived_from posix_host location [Some (local location)] x).
Proof.
  cbn zeta.
  pose proof (@init_includes_derived posix_host (make_env [] [])
                (location_at "/opt/boost" "boost")
                [Some "include"; None; Some ""; Some "/usr/include"] [] None None)
    as (_ & _ & Hsome & _).
  pose proof (@init_includes_derived posix_host (make_env [] [])
                (location_at "/opt/boost" "boost") [] [] None None)
    as (_ & _ & _ & Hnone).
  destruct Hsome as [Heq Hder]; [left; discriminate |].
  split_and!; [exact Heq | exact Hder | exact (Hnone eq_refl eq_refl)].
Defined.

(** ** [location_id] *)

Section location.
Context `{Host}.

(** [location_id] when the fallbacks are not needed: the location is
    whatever of the command line and the class default is truthy first. *)
Lemma location_id_direct cls env w (location : str_or_none) :
  (if negb (truthy (get_option env (_name cls +:+ "-location")))
      && truthy (_default_location cls)
   then _default_location cls
   else get_option env (_name cls +:+ "-location")) = location →
  truthy location = true →
  location_id cls env w
  = (w, Returns (Some (expanduser (as_str location),
                       get_option env (_name cls +:+ "-branch")))).
Proof.
  intros Hloc Ht. unfold location_id. rewrite Hloc. by settle.
Qed.

(** [location_id] when neither the command line nor the class gives a
    location and there is no branch. *)
Lemma location_id_nothing cls env w :
  truthy (get_option env (_name cls +:+ "-location")) = false →
  truthy (_default_location cls) = false →
  truthy (get_option env (_name cls +:+ "-branch")) = false →
  location_id cls env w
  = ((logger DEBUG
        "No location specified for dependency [{}]. Dependency not available."
        [_name cls] w).1, Returns None).
Proof.
  intros Hcli Hdef Hbr. unfold location_id. by settle.
Qed.

(** [location_id] on the fallbacks: the branch root, and the third party
    root when the branch root is falsy. *)
Lemma location_id_fallback cls env w root :
  truthy (get_option env (_name cls +:+ "-location")) = false →
  truthy (_default_location cls) = false →
  truthy (get_option env (_name cls +:+ "-branch")) = true →
  vars env !! "branch_root" = Some root →
  location_id cls env w
  = if truthy (Some root) then
      (w, Returns (Some (expanduser root, get_option env (_name cls +:+ "-branch"))))
    else
      match vars env !! "thirdparty" with
      | None => (w, Raises (KeyError "thirdparty"))
      | Some t =>
        if truthy (Some t) then
          (w, Returns (Some (expanduser t, get_option env (_name cls +:+ "-branch"))))
        else
          ((logger DEBUG
              "No location specified for dependency [{}]. Dependency not available."
              [_name cls] w).1, Returns None)
      end.
Proof.
  intros Hcli Hdef Hbr Hroot. unfold location_id, env_item.
  rewrite Hroot. settle.
  destruct (truthy (Some root)) eqn:Hr; settle; [done |].
  destruct (vars env !! "thirdparty") as [t|]; settle; [|done].
  by destruct (truthy (Some t)) eqn:Ht; settle.
Qed.

(** C4: the location comes from the command line option when that is given;
    else from the class default when there is one; else, for a given branch,
    from the branch root of the environment; and without option, default and
    branch the result is [None]. *)
Theorem location_id_precedence cls env w :
  let cli := get_option env (_name cls +:+ "-location") in
  let branch := get_option env (_name cls +:+ "-branch") in
  (truthy cli = true →
   location_id cls env w = (w, Returns (Some (expanduser (as_str cli), branch))))
  ∧ (truthy cli = false → truthy (_default_location cls) = true →
     location_id cls env w
     = (w, Returns (Some (expanduser (as_str (_default_location cls)), branch))))
  ∧ (truthy cli = false → truthy (_default_location cls) = false →
     truthy branch = true →
     ∀ root, vars env !! "branch_root" = Some root → root ≠ "" →
     location_id cls env w = (w, Returns (Some (expanduser root, branch))))
  ∧ (truthy cli = false → truthy (_default_location cls) = false →
     truthy branch = false →
     (location_id cls env w).2 = Returns None).
Proof.
  cbn zeta. split_and!.
  - intros Hcli. apply location_id_direct; [by rewrite Hcli | done].
  - intros Hcli Hdef. apply location_id_direct; [by rewrite Hcli, Hdef | done].
  - intros Hcli Hdef Hbr root Hroot Hne.
    rewrite (location_id_fallback _ _ _ root) by done.
    apply truthy_Some in Hne. by rewrite Hne.
  - intros Hcli Hdef Hbr. by rewrite location_id_nothing.
Qed.

(** C8 (as amended): the assignment from [env['thirdparty']] runs when a
    branch is given, neither the command line nor the class gives a location
    and [env['branch_root']] is falsy, and the location is then the third
    party root; in every other case where [env['branch_root']] can be read the
    result of [location_id] does not depend on [env['thirdparty']]. *)
Theorem thirdparty_fallback cls env w :
  let cli := get_option env (_name cls +:+ "-location") in
  let branch := get_option env (_name cls +:+ "-branch") in
  (truthy cli = false → truthy (_default_location cls) = false →
   truthy branch = true → vars env !! "branch_root" = Some "" →
   ∀ t, vars env !! "thirdparty" = Some t → t ≠ "" →
   location_id cls env w = (w, Returns (Some (expanduser t, branch))))
  ∧ (truthy cli = true ∨ truthy (_default_location cls) = true
     ∨ truthy branch = false
     ∨ (∃ root, vars env !! "branch_root" = Some root ∧ root ≠ "") →
     ∀ env', options env' = options env →
             vars env' !! "branch_root" = vars env !! "branch_root" →
             location_id cls env' w = location_id cls env w).
Proof.
  cbn zeta. split.
  - intros Hcli Hdef Hbr Hroot t Ht Hne.
    rewrite (location_id_fallback _ _ _ "") by done. cbn -[truthy].
    rewrite Ht. apply truthy_Some in Hne. by rewrite Hne.
  - intros Hcase env' Hopts Hroot'.
    assert (∀ name, get_option env' name = get_option env name) as Hget.
    { intros name. unfold get_option. by rewrite Hopts. }
    destruct (truthy (get_option env (_name cls +:+ "-location"))) eqn:Hcli.
    { rewrite !(location_id_direct _ _ _ (get_option env (_name cls +:+ "-location")));
        rewrite ?Hget, ?Hcli; done. }
    destruct (truthy (_default_location cls)) eqn:Hdef.
    { rewrite !(location_id_direct _ _ _ (_default_location cls));
        rewrite ?Hget, ?Hcli, ?Hdef; done. }
    destruct (truthy (get_option env (_name cls +:+ "-branch"))) eqn:Hbr.
    2:{ rewrite !location_id_nothing; rewrite ?Hget; done. }
    destruct Hcase as [?|[?|[?|(root & Hroot & Hne)]]]; try done.
    rewrite !(location_id_fallback _ _ _ root); rewrite ?Hget, ?Hroot'; try done.
    apply truthy_Some in Hne. by rewrite Hne.
Qed.

End location.

Lemma location_id_precedence_witness :
  let cls := boost_with_include in
  let roots := [("branch_root", "/srv/branches")] in
  @location_id posix_host cls
     (make_env [("boost-location", "~/boost"); ("boost-branch", "trunk")] roots)
     initial_world
  = (initial_world, Returns (Some ("/home/dev/boost", Some "trunk")))
  ∧ @location_id posix_host cls (make_env [("boost-branch", "trunk")] roots)
      initial_world
    = (initial_world, Returns (Some ("/opt/boost", Some "trunk")))
  ∧ @location_id posix_host boost (make_env [("boost-branch", "trunk")] roots)
      initial_world
    = (initial_world, Returns (Some ("/srv/branches", Some "trunk")))
  ∧ (@location_id posix_host boost (make_env [] roots) initial_world).2
    = Returns None.
Proof.
  split_and!.
  - pose proof (@location_id_precedence posix_host boost_with_include
                  (make_env [("boost-location", "~/boost"); ("boost-branch", "trunk")]
                     [("branch_root", "/srv/branches")]) initial_world)
      as (Hcli & _).
    exact (Hcli eq_refl).
  - pose proof (@location_id_precedence posix_host boost_with_include
                  (make_env [("boost-branch", "trunk")]
                     [("branch_root", "/srv/branches")]) initial_world)
      as (_ & Hdefault & _).
    exact (Hdefault eq_refl eq_refl).
  - pose proof (@location_id_precedence posix_host boost
                  (make_env [("boost-branch", "trunk")]
                     [("branch_root", "/srv/branches")]) initial_world)
      as (_ & _ & Hbranch & _).
    apply (Hbranch eq_refl eq_refl eq_refl "/srv/branches" eq_refl). discriminate.
  - pose proof (@location_id_precedence posix_host boost
                  (make_env [] [("branch_root", "/srv/branches")]) initial_world)
      as (_ & _ & _ & Hnone).
    exact (Hnone eq_refl eq_refl eq_refl).
Defined.

(** C8 read literally fails when the branch root is empty: the location
    returned is the third party root and follows it. *)
Lemma thirdparty_fallback_runs :
  let env t := make_env [("boost-branch", "trunk")]
                 [("branch_root", ""); ("thirdparty", t)] in
  @location_id posix_host boost (env "/srv/thirdparty") initial_world
  = (initial_world, Returns (Some ("/srv/thirdparty", Some "trunk")))
  ∧ @location_id posix_host boost (env "/srv/vendor") initial_world
    = (initial_world, Returns (Some ("/srv/vendor", Some "trunk"))).
Proof. split; vm_compute; reflexivity. Qed.

Lemma thirdparty_fallback_witness :
  let env := make_env [("boost-branch", "trunk")]
               [("branch_root", ""); ("thirdparty", "/srv/thirdparty")] in
  let env' := make_env [("boost-branch", "trunk")]
                [("branch_root", "/srv/branches"); ("thirdparty", "/srv/thirdparty")] in
  @location_id posix_host boost env initial_world
  = (initial_world, Returns (Some ("/srv/thirdparty", Some "trunk")))
  ∧ @location_id posix_host boost
      (make_env [("boost-branch", "trunk")]
         [("branch_root", "/srv/branches"); ("thirdparty", "/srv/vendor")])
      initial_world
    = @location_id posix_host boost env' initial_world.
Proof.
  split.
  - pose proof (@thirdparty_fallback posix_host boost
                  (make_env [("boost-branch", "trunk")]
                     [("branch_root", ""); ("thirdparty", "/srv/thirdparty")])
                  initial_world) as (Hruns & _).
    apply (Hruns eq_refl eq_refl eq_refl eq_refl "/srv/thirdparty" eq_refl).
    discriminate.
  - pose proof (@thirdparty_fallback posix_host boost
                  (make_env [("boost-branch", "trunk")]
                     [("branch_root", "/srv/branches");
                      ("thirdparty", "/srv/thirdparty")])
                  initial_world) as (_ & Hskips).
    apply Hskips; [| reflexivity | reflexivity].
    right. right. right. exists "/srv/branches". split; [reflexivity | discriminate].
Defined.

(** ** [_get_location] and [create] *)

Section unavailable.
Context `{Host}.





End unavailable.

(** ** The early return of [build_library_from_source] *)

Section early_return.
Context `{Host}.

(** C6: without a source path and without sources the call logs one warning
    and returns [None]; it leaves both caches (and everything else but the
    log) as they are, and nothing of what it does depends on them: from any
    other state the outcome and the log record are the same. *)
Theorem no_sources_no_library cls self env sources library_name linktype w :
  truthy (self_source_path cls self) = false →
  truthy_list sources = false →
  let run := build_library_from_source cls self env sources library_name linktype in
  let warning := Log WARN "Attempting to build library when source path is None" [] in
  (run w).2 = Returns None
  ∧ events (run w).1 = events w ++ [warning]
  ∧ _prebuilt_objects (run w).1 = _prebuilt_objects w
  ∧ _prebuilt_libraries (run w).1 = _prebuilt_libraries w
  ∧ _cached_locations (run w).1 = _cached_locations w
  ∧ next_node (run w).1 = next_node w
  ∧ ∀ w', (run w').2 = (run w).2 ∧ events (run w').1 = events w' ++ [warning].
Proof.
  intros Hpath Hsources. cbn zeta. unfold build_library_from_source.
  rewrite Hpath, Hsources. cbn. done.
Qed.

End early_return.


Lemma no_sources_no_library_witness :
  let self := @__init__ posix_host (make_env [] [])
                (location_at "/opt/boost" "boost") [] [] None None in
  let run := @build_library_from_source posix_host boost self (make_env [] [])
               None None None in
  (run initial_world).2 = Returns None
  ∧ _prebuilt_objects (run initial_world).1 = ∅
  ∧ _prebuilt_libraries (run initial_world).1 = ∅.
Proof.
  cbn zeta.
  pose proof (@no_sources_no_library posix_host boost
                (@__init__ posix_host (make_env [] [])
                   (location_at "/opt/boost" "boost") [] [] None None)
                (make_env [] []) None None None initial_world eq_refl eq_refl)
    as (Hnone & _ & Hobjects & Hlibraries & _).
  split_and!; [exact Hnone | exact Hobjects | exact Hlibraries].
Defined.

(** ** Repeated [create] *)

Section assembly.
Context `{Host}.

(** The class after [create], attribute by attribute. *)
Lemma assemble_fields cls env :
  assemble cls env
  = {| _name := _name cls;
       _default_location := _default_location cls;
       _default_include := _default_include cls;
       _default_sys_include := _default_sys_include cls;
       _includes :=
         (let includes :=
            if truthy_list (_includes cls) then _includes cls
            else Some (if truthy (get_option env (_name cls +:+ "-include"))
                       then [get_option env (_name cls +:+ "-include")] else []) in
          if truthy (_default_include cls)
          then Some (as_list includes ++ [_default_include cls]) else includes);
       _sys_includes :=
         (let sys_includes :=
            if truthy_list (_sys_includes cls) then _sys_includes cls
            else Some (if truthy (get_option env (_name cls +:+ "-sys-include"))
                       then [get_option env (_name cls +:+ "-sys-include")] else []) in
          if truthy (_default_sys_include cls)
          then Some (as_list sys_includes ++ [_default_sys_include cls])
          else sys_includes);
       _extra_sub_path := _extra_sub_path cls;
       _source_path :=
         if truthy (_source_path cls) then _source_path cls
         else get_option env (_name cls +:+ "-source-path");
       _linktype :=
         if truthy (_linktype cls) then _linktype cls
         else get_option env (_name cls +:+ "-linktype") |}.
Proof.
  unfold assemble. destruct cls as [name dl di ds inc sinc extra sp lt].
  cbn -[truthy truthy_list].
  destruct (truthy_list inc); cbn -[truthy truthy_list];
    destruct (truthy_list sinc); cbn -[truthy truthy_list];
    destruct (truthy di); cbn -[truthy truthy_list];
    destruct (truthy ds); cbn -[truthy truthy_list];
    destruct (truthy sp); cbn -[truthy truthy_list];
    destruct (truthy lt); reflexivity.
Qed.

Lemma truthy_list_snoc {A} (l : list A) (x : A) : truthy_list (Some (l ++ [x])) = true.
Proof. by destruct l. Qed.

(** What goes wrong: every [create] appends the default include directory
    to the list the class already holds. *)
Lemma assemble_appends_default cls env :
  truthy (_default_include cls) = true →
  as_list (_includes (assemble (assemble cls env) env))
  = as_list (_includes (assemble cls env)) ++ [_default_include cls].
Proof.
  intros Hdef. rewrite (assemble_fields (assemble cls env)).
  rewrite (assemble_fields cls env). cbn -[truthy truthy_list].
  by rewrite Hdef, truthy_list_snoc.
Qed.

(** What works: the source path and the link type of the class are settled
    by the first [create]. *)
Lemma assemble_idempotent_rest cls env :
  _source_path (assemble (assemble cls env) env) = _source_path (assemble cls env)
  ∧ _linktype (assemble (assemble cls env) env) = _linktype (assemble cls env).
Proof.
  rewrite (assemble_fields (assemble cls env)), (assemble_fields cls env).
  cbn -[truthy]. split.
  - destruct (truthy (_source_path cls)) eqn:Hp; rewrite ?Hp; [done |].
    by destruct (truthy (get_option _ _)).
  - destruct (truthy (_linktype cls)) eqn:Hl; rewrite ?Hl; [done |].
    by destruct (truthy (get_option _ _)).
Qed.

End assembly.

(** C3 fails on the code: a class with a default include directory gives its
    second instance that directory twice. *)
Theorem create_twice_differs :
  let env := make_env [] [] in
  match @create posix_host boost_with_include env initial_world with
  | (w1, Returns (cls1, Some first)) =>
    match @create posix_host cls1 env w1 with
    | (_, Returns (_, Some second)) =>
      Self._includes first = ["/opt/boost/include"]
      ∧ Self._includes second = ["/opt/boost/include"; "/opt/boost/include"]
      ∧ Self._sys_includes first = Self._sys_includes second
      ∧ Self._source_path first = Self._source_path second
      ∧ Self._linktype first = Self._linktype second
    | _ => False
    end
  | _ => False
  end.
Proof. vm_compute. done. Qed.

(** ** The node caches *)

(** Creating the inner dictionaries changes no entry. *)
Lemma node_dict_lazy cls variant_key c name vk :
  node_dict (lazy_create_node cls variant_key c) name vk = node_dict c name vk.
Proof.
  unfold lazy_create_node, node_dict.
  destruct (c !! _name cls) as [by_variant|] eqn:Hc.
  - rewrite Hc. cbn. destruct (by_variant !! variant_key) eqn:Hv; [done |].
    destruct (decide (name = _name cls)) as [->|Hne].
    + rewrite lookup_insert_eq, Hc. cbn.
      destruct (decide (vk = variant_key)) as [->|Hne'].
      * by rewrite lookup_insert_eq, Hv.
      * by rewrite lookup_insert_ne.
    + by rewrite lookup_insert_ne.
  - rewrite lookup_insert_eq. cbn. rewrite lookup_empty.
    destruct (decide (name = _name cls)) as [->|Hne].
    + rewrite lookup_insert_eq, Hc. cbn.
      destruct (decide (vk = variant_key)) as [->|Hne'].
      * by rewrite lookup_insert_eq.
      * by rewrite lookup_insert_ne.
    + rewrite lookup_insert_ne by done. by rewrite lookup_insert_ne.
Qed.

Lemma node_dict_set_eq c name vk key n :
  node_dict (node_dict_set c name vk key n) name vk !! key = Some n.
Proof.
  unfold node_dict_set, node_dict at 1.
  rewrite lookup_insert_eq. cbn. rewrite lookup_insert_eq. cbn.
  by rewrite lookup_insert_eq.
Qed.

Lemma node_dict_set_ne c name vk key n name' vk' key' :
  (name, vk, key) ≠ (name', vk', key') →
  node_dict (node_dict_set c name vk key n) name' vk' !! key'
  = node_dict c name' vk' !! key'.
Proof.
  intros Hne. unfold node_dict_set, node_dict at 1.
  destruct (decide (name = name')) as [<-|Hname];
    [| by rewrite lookup_insert_ne].
  rewrite lookup_insert_eq. cbn.
  destruct (decide (vk = vk')) as [<-|Hvk];
    [| by rewrite lookup_insert_ne].
  rewrite lookup_insert_eq. cbn.
  destruct (decide (key = key')) as [<-|Hkey]; [done |].
  by rewrite lookup_insert_ne.
Qed.

Lemma cache_le_refl c : cache_le c c.
Proof. by intros ????. Qed.

Lemma cache_le_trans c1 c2 c3 : cache_le c1 c2 → cache_le c2 c3 → cache_le c1 c3.
Proof. intros H12 H23 name vk key n Hn. by apply H23, H12. Qed.

Lemma cache_le_lazy cls variant_key c : cache_le c (lazy_create_node cls variant_key c).
Proof. intros name vk key n Hn. by rewrite node_dict_lazy. Qed.

(** Check before insert: a new entry under a free key keeps all others. *)
Lemma cache_le_set c name vk key n :
  node_dict c name vk !! key = None →
  cache_le c (node_dict_set c name vk key n).
Proof.
  intros Hfree name' vk' key' n' Hn'.
  rewrite node_dict_set_ne; [done |].
  intros [= -> -> ->]. congruence.
Qed.

Lemma extends_refl w : extends w w.
Proof. split; apply cache_le_refl. Qed.

Lemma extends_trans w1 w2 w3 : extends w1 w2 → extends w2 w3 → extends w1 w3.
Proof. intros [??] [??]. split; by eapply cache_le_trans. Qed.

Lemma growing_ret {A} (a : A) : growing (ret a).
Proof. intros w. apply extends_refl. Qed.

Lemma growing_raise {A} (e : exn) : growing (@raise A e).
Proof. intros w. apply extends_refl. Qed.

Lemma growing_bind {A B} (m : M A) (k : A → M B) :
  growing m → (∀ a, growing (k a)) → growing (bind m k).
Proof.
  intros Hm Hk w. unfold bind. specialize (Hm w).
  destruct (m w) as [w' [a|e]]; [| done].
  eapply extends_trans; [exact Hm | apply Hk].
Qed.

Lemma growing_env_item env key : growing (env_item env key).
Proof. unfold env_item. destruct (vars env !! key); [apply growing_ret | apply growing_raise]. Qed.

Lemma growing_emit e : growing (emit e).
Proof. intros w. split; apply cache_le_refl. Qed.

Lemma growing_builder record : growing (builder record).
Proof. intros w. split; apply cache_le_refl. Qed.

Lemma growing_lazy_objects cls vk : growing (update_objects (lazy_create_node cls vk)).
Proof. intros w. split; [apply cache_le_lazy | apply cache_le_refl]. Qed.

Lemma growing_lazy_libraries cls vk : growing (update_libraries (lazy_create_node cls vk)).
Proof. intros w. split; [apply cache_le_refl | apply cache_le_lazy]. Qed.

Lemma growing_if {A} (b : bool) (m1 m2 : M A) :
  growing m1 → growing m2 → growing (if b then m1 else m2).
Proof. by destruct b. Qed.

(** ** [build_library_from_source] *)

Section build.
Context `{Host}.

Lemma object_for_empty cls vk local_dir build_dir sfx shared w :
  object_for cls vk local_dir build_dir sfx shared "" w
  = (w, Raises (ValueError "no path specified")).
Proof. done. Qed.

Lemma object_for_hit cls vk local_dir build_dir sfx shared source w n :
  source ≠ "" →
  node_dict (_prebuilt_objects w) (_name cls) vk
    !! obj_key local_dir sfx source = Some n →
  object_for cls vk local_dir build_dir sfx shared source w = (w, Returns n).
Proof.
  intros Hsource Hn. unfold object_for, rel_obj_path.
  rewrite bool_decide_eq_false_2 by done.
  unfold bind, prebuilt_object, ret. cbn. rewrite Hn. cbn. by rewrite Hn.
Qed.

Lemma object_for_miss cls vk local_dir build_dir sfx shared source w :
  let key := obj_key local_dir sfx source in
  source ≠ "" →
  node_dict (_prebuilt_objects w) (_name cls) vk !! key = None →
  object_for cls vk local_dir build_dir sfx shared source w
  = ({| _cached_locations := _cached_locations w;
        _prebuilt_objects :=
          node_dict_set (_prebuilt_objects w) (_name cls) vk key (next_node w);
        _prebuilt_libraries := _prebuilt_libraries w;
        next_node := S (next_node w);
        events := events w ++ [Object shared (join build_dir key) source (next_node w)] |},
     Returns (next_node w)).
Proof.
  intros key Hsource Hn. unfold object_for, rel_obj_path.
  rewrite bool_decide_eq_false_2 by done.
  unfold bind, prebuilt_object, builder, update_objects, ret. cbn.
  fold key. rewrite Hn. cbn. by rewrite node_dict_set_eq.
Qed.

(** The loop over the sources: it returns one node per source, the node
    the cache holds for it afterwards; the caches only grow; and the object
    builder runs only for sources whose key was free when the loop began. *)
Lemma objects_for_spec cls vk local_dir build_dir sfx shared sources :
  "" ∉ sources →
  ∀ objects w,
  ∃ ns w',
    objects_for cls vk local_dir build_dir sfx shared sources objects w
    = (w', Returns (objects ++ ns))
    ∧ (∀ i s, sources !! i = Some s →
         ∃ n, ns !! i = Some n
              ∧ node_dict (_prebuilt_objects w') (_name cls) vk
                  !! obj_key local_dir sfx s = Some n)
    ∧ cache_le (_prebuilt_objects w) (_prebuilt_objects w')
    ∧ _prebuilt_libraries w' = _prebuilt_libraries w
    ∧ ∃ evs, events w' = events w ++ evs
             ∧ Forall (λ e, ∃ p s n, e = Object shared p s n ∧ s ∈ sources
                            ∧ node_dict (_prebuilt_objects w) (_name cls) vk
                                !! obj_key local_dir sfx s = None) evs.
Proof.
  induction sources as [|source sources IH]; intros Hvalid objects w.
  - exists [], w. cbn. rewrite app_nil_r. split_and!; try done.
    + apply cache_le_refl.
    + exists []. by rewrite app_nil_r.
  - apply not_elem_of_cons in Hvalid as [Hsource Hvalid]. specialize (IH Hvalid).
    assert (source ≠ "") as Hsource' by done.
    cbn [objects_for]. unfold bind at 1.
    destruct (node_dict (_prebuilt_objects w) (_name cls) vk
                !! obj_key local_dir sfx source) as [n|] eqn:Hn.
    + rewrite (object_for_hit _ _ _ _ _ _ _ _ n Hsource' Hn).
      destruct (IH (objects ++ [n]) w) as (ns & w' & Hrun & Hns & Hle & Hlib & evs & Hev & Hall).
      exists (n :: ns), w'. rewrite Hrun, <- app_assoc. split_and!; try done.
      * intros [|i] s Hs; cbn in Hs.
        -- injection Hs as <-. exists n. split; [done |]. by apply Hle.
        -- by apply Hns.
      * exists evs. split; [done |].
        eapply Forall_impl; [exact Hall |].
        intros e (p & s & m & -> & Hin & Hfree). exists p, s, m.
        split_and!; [done | by apply list_elem_of_further | done].
    + rewrite object_for_miss by done.
      set (key := obj_key local_dir sfx source) in *.
      set (w1 := {| _cached_locations := _cached_locations w;
                    _prebuilt_objects :=
                      node_dict_set (_prebuilt_objects w) (_name cls) vk key (next_node w);
                    _prebuilt_libraries := _prebuilt_libraries w;
                    next_node := S (next_node w);
                    events := events w
                      ++ [Object shared (join build_dir key) source (next_node w)] |}).
      assert (cache_le (_prebuilt_objects w) (_prebuilt_objects w1)) as Hle1
        by by apply cache_le_set.
      destruct (IH (objects ++ [next_node w]) w1)
        as (ns & w' & Hrun & Hns & Hle & Hlib & evs & Hev & Hall).
      exists (next_node w :: ns), w'. rewrite Hrun, <- app_assoc. split_and!; try done.
      * intros [|i] s Hs; cbn in Hs.
        -- injection Hs as <-. exists (next_node w). split; [done |].
           apply Hle. apply node_dict_set_eq.
        -- by apply Hns.
      * by eapply cache_le_trans.
      * exists (Object shared (join build_dir key) source (next_node w) :: evs).
        split; [by rewrite Hev; cbn; rewrite <- app_assoc |].
        constructor.
        -- exists (join build_dir key), source, (next_node w).
           split_and!; [done | apply list_elem_of_here | done].
        -- eapply Forall_impl; [exact Hall |].
           intros e (p & s & m & -> & Hin & Hfree). exists p, s, m.
           split_and!; [done | by apply list_elem_of_further |].
           destruct (node_dict (_prebuilt_objects w) (_name cls) vk
                       !! obj_key local_dir sfx s) as [m'|] eqn:Hm; [|done].
           apply Hle1 in Hm. congruence.
Qed.

Lemma library_for_hit cls env vk library_name linktype final_dir objects w l :
  node_dict (_prebuilt_libraries w) (_name cls) vk !! linktype = Some l →
  library_for cls env vk library_name linktype final_dir objects w
  = ((logger TRACE "using existing library = [{}]" [pretty l] w).1, Returns (Some l)).
Proof.
  intros Hl. unfold library_for, bind, prebuilt_library, ret, logger, emit. cbn.
  rewrite Hl. cbn. by rewrite Hl.
Qed.

(** The library of a link type not yet cached: built by one call of the
    library builder (followed by the install step when shared) and stored. *)
Lemma library_for_miss cls env vk library_name linktype final_dir objects w :
  node_dict (_prebuilt_libraries w) (_name cls) vk !! linktype = None →
  is_Some (vars env !! "abs_final_dir") →
  ∃ l w',
    library_for cls env vk library_name linktype final_dir objects w
    = (w', Returns (Some l))
    ∧ node_dict (_prebuilt_libraries w') (_name cls) vk !! linktype = Some l
    ∧ _prebuilt_objects w' = _prebuilt_objects w
    ∧ ∃ evs, events w' = events w ++ evs
             ∧ evs = Library (bool_decide (linktype = "shared")) library_name
                       objects final_dir (next_node w)
                     :: (if bool_decide (linktype = "shared")
                         then [Install (env_var env "abs_final_dir") (next_node w) l]
                         else []).
Proof.
  intros Hl [dir Hdir].
  unfold library_for, bind, prebuilt_library, builder, update_libraries, env_item,
    env_var, ret. cbn.
  rewrite Hl. cbn. destruct (bool_decide (linktype = "shared")); cbn.
  - rewrite Hdir. cbn. rewrite node_dict_set_eq.
    eexists _, _. split_and!; [done | cbn; apply node_dict_set_eq | done |].
    eexists. split; [|done]. cbn. by rewrite <- app_assoc.
  - rewrite node_dict_set_eq.
    eexists _, _. split_and!; [done | cbn; apply node_dict_set_eq | done |].
    eexists. split; [|done]. done.
Qed.

End build.

Section growth.
Context `{Host}.

Lemma growing_object_for cls vk local_dir build_dir sfx shared source :
  growing (object_for cls vk local_dir build_dir sfx shared source).
Proof.
  intros w. destruct (decide (source = "")) as [-> | Hsource].
  { rewrite object_for_empty. apply extends_refl. }
  destruct (node_dict (_prebuilt_objects w) (_name cls) vk
              !! obj_key local_dir sfx source) as [n|] eqn:Hn.
  - rewrite (object_for_hit _ _ _ _ _ _ _ _ n Hsource Hn). apply extends_refl.
  - rewrite object_for_miss by done. split; cbn.
    + by apply cache_le_set.
    + apply cache_le_refl.
Qed.

Lemma growing_objects_for cls vk local_dir build_dir sfx shared sources objects :
  growing (objects_for cls vk local_dir build_dir sfx shared sources objects).
Proof.
  revert objects. induction sources as [|source sources IH]; intros objects;
    cbn [objects_for].
  - apply growing_ret.
  - apply growing_bind; [apply growing_object_for | intros n; apply IH].
Qed.

Lemma growing_library_for cls env vk library_name linktype final_dir objects :
  growing (library_for cls env vk library_name linktype final_dir objects).
Proof.
  intros w.
  destruct (node_dict (_prebuilt_libraries w) (_name cls) vk !! linktype)
    as [l|] eqn:Hl.
  - rewrite (library_for_hit _ _ _ _ _ _ _ _ l Hl). split; apply cache_le_refl.
  - unfold library_for, bind, prebuilt_library, builder, update_libraries, env_item,
      ret, raise. cbn. rewrite Hl. cbn.
    destruct (bool_decide (linktype = "shared")); cbn.
    + destruct (vars env !! "abs_final_dir"); cbn.
      * rewrite node_dict_set_eq. split; cbn; [apply cache_le_refl |].
        by apply cache_le_set.
      * split; apply cache_le_refl.
    + rewrite node_dict_set_eq. split; cbn; [apply cache_le_refl |].
      by apply cache_le_set.
Qed.

Lemma growing_objects_of cls self env sources linktype :
  growing (objects_of cls self env sources linktype).
Proof.
  unfold objects_of.
  repeat first
    [ apply growing_bind; [| intros ?]
    | apply growing_env_item
    | apply growing_lazy_objects
    | apply growing_lazy_libraries
    | apply growing_emit
    | apply growing_if
    | apply growing_objects_for
    | apply growing_ret ].
Qed.

(** Whatever the arguments and whatever the outcome, a call of
    [build_library_from_source] drops no entry of either cache and changes
    none. *)
Lemma growing_build_library_from_source cls self env sources library_name linktype :
  growing (build_library_from_source cls self env sources library_name linktype).
Proof.
  unfold build_library_from_source. apply growing_if.
  - apply growing_bind; [apply growing_emit | intros ?; apply growing_ret].
  - apply growing_bind; [apply growing_objects_of |].
    intros [[variant_key final_dir] objects]. apply growing_library_for.
Qed.

Lemma extends_run_calls cs w : extends w (run_calls cs w).
Proof.
  revert w. induction cs as [|c cs IH]; intros w; cbn.
  - apply extends_refl.
  - eapply extends_trans; [| apply IH].
    apply growing_build_library_from_source.
Qed.

End growth.

Section complete_calls.
Context `{Host}.

Lemma env_complete_var env key :
  env_complete env → key ∈ build_keys → vars env !! key = Some (env_var env key).
Proof.
  intros Hc Hkey. destruct (Hc key Hkey) as [v Hv]. unfold env_var. by rewrite Hv.
Qed.

(** A call that has something to build in a complete environment: its
    object phase returns one node per source, the one cached for it
    afterwards; its library phase starts from there; the library cache is
    as before the call; and the object builder has run only for sources
    whose key was free before the call, the library builder not yet. *)
Lemma run_call_objects (c : call) (w : world) :
  env_complete (c_env c) →
  buildable c →
  valid_sources c →
  ∃ wb objects final_dir library_name,
    objects_of (c_cls c) (c_self c) (c_env c) (c_sources c) (call_linktype c) w
    = (wb, Returns (call_variant c, final_dir, objects))
    ∧ run_call c w
      = library_for (c_cls c) (c_env c) (call_variant c) library_name
          (call_linktype c) final_dir objects wb
    ∧ (∀ i s, call_sources c !! i = Some s →
         ∃ n, objects !! i = Some n
              ∧ node_dict (_prebuilt_objects wb) (_name (c_cls c)) (call_variant c)
                  !! object_key c s = Some n)
    ∧ cache_le (_prebuilt_objects w) (_prebuilt_objects wb)
    ∧ (∀ name vk, node_dict (_prebuilt_libraries wb) name vk
                  = node_dict (_prebuilt_libraries w) name vk)
    ∧ ∃ evs, events wb = events w ++ evs
             ∧ Forall (λ e, is_library e = false
                            ∧ ∀ sh p s n, e = Object sh p s n →
                                node_dict (_prebuilt_objects w) (_name (c_cls c))
                                  (call_variant c) !! object_key c s = None) evs.
Proof.
  intros Hc Hb Hv. destruct c as [cls self env sources library_name linktype].
  unfold buildable, valid_sources, call_variant, call_sources, call_obj_suffix,
    object_key, run_call, call_linktype in *. cbn [c_cls c_self c_env c_sources c_library_name c_linktype] in *.
  set (lt := if negb (truthy linktype) then Self._linktype self else as_str linktype).
  set (vk := env_var env "tool_variant_dir").
  set (sfx := if bool_decide (lt = "shared") then env_var env "SHOBJSUFFIX"
              else env_var env "OBJSUFFIX").
  set (srcs := if truthy_list sources then as_list sources
               else RecursiveGlob env "*.cpp" (as_str (self_source_path cls self))
                      [env_var env "build_dir"]).
  set (build_dir := join (join (env_var env "build_root")
                            (local_folder (Self._location self)))
                      (env_var env "tool_variant_working_dir")).
  set (wa := {| _cached_locations := _cached_locations w;
                _prebuilt_objects := lazy_create_node cls vk (_prebuilt_objects w);
                _prebuilt_libraries := lazy_create_node cls vk (_prebuilt_libraries w);
                next_node := next_node w;
                events := (events w
                  ++ [Log DEBUG "build_dir for [{}] = [{}]" [_name cls; build_dir]])
                  ++ [Log DEBUG "final_dir for [{}] = [{}]"
                        [_name cls;
                         normpath (join build_dir (env_var env "final_dir"))]] |}).
  destruct (objects_for_spec cls vk (local (Self._location self)) build_dir sfx
              (bool_decide (lt = "shared")) srcs Hv [] wa)
    as (ns & wb & Hrun & Hns & Hle & Hlib & evs & Hev & Hall).
  assert (objects_of cls self env sources lt w
          = (wb, Returns (vk, normpath (join build_dir (env_var env "final_dir")), ns)))
    as Hobjects.
  { unfold objects_of, env_item.
    rewrite !(env_complete_var env) by (done || by repeat constructor).
    clear Hns Hle Hlib Hev Hall Hv. revert Hrun. subst wa srcs sfx build_dir vk.
    unfold bind, ret, raise, update_objects, update_libraries, logger, emit.
    destruct (bool_decide (lt = "shared")), (truthy_list sources);
      cbn -[objects_for]; by intros ->. }
  exists wb, ns, (normpath (join build_dir (env_var env "final_dir"))),
    (if negb (truthy library_name) then _name cls else as_str library_name).
  split_and!.
  - done.
  - unfold build_library_from_source.
    destruct (truthy (self_source_path cls self)), (truthy_list sources);
      try done; cbn [negb andb]; fold lt; unfold bind; by rewrite Hobjects.
  - done.
  - eapply cache_le_trans; [| exact Hle]. apply cache_le_lazy.
  - intros name vk'. rewrite Hlib. cbn. apply node_dict_lazy.
  - eexists. split.
    + rewrite Hev. cbn. rewrite <- !app_assoc. done.
    + cbn. repeat (constructor; [done |]).
      eapply Forall_impl; [exact Hall |].
      intros e (p & s & n & -> & _ & Hfree). split; [done |].
      intros sh p' s' n' [= _ _ <- _]. cbn in Hfree.
      by rewrite node_dict_lazy in Hfree.
Qed.

End complete_calls.

Lemma new_events_app w w' evs : events w' = events w ++ evs → new_events w w' = evs.
Proof. intros Hev. unfold new_events. rewrite Hev. by rewrite drop_app_length. Qed.

Lemma library_calls_app evs1 evs2 :
  library_calls (evs1 ++ evs2) = library_calls evs1 + library_calls evs2.
Proof. unfold library_calls. by rewrite List.filter_app, length_app. Qed.

Lemma library_calls_none evs :
  Forall (λ e, is_library e = false) evs → library_calls evs = 0.
Proof.
  unfold library_calls. induction 1 as [|e evs He _ IH]; [done |].
  cbn. by rewrite He.
Qed.

Section library_phase.
Context `{Host}.

(** The library phase in a complete environment: it returns the node the
    library cache holds afterwards, which is the one it held before if any;
    it calls no object builder and leaves the object cache alone; and it
    calls the library builder once if the link type was not cached, and not
    at all if it was. *)
Lemma library_for_spec cls env vk library_name linktype final_dir objects w :
  is_Some (vars env !! "abs_final_dir") →
  ∃ l w' evs,
    library_for cls env vk library_name linktype final_dir objects w
    = (w', Returns (Some l))
    ∧ node_dict (_prebuilt_libraries w') (_name cls) vk !! linktype = Some l
    ∧ _prebuilt_objects w' = _prebuilt_objects w
    ∧ events w' = events w ++ evs
    ∧ Forall (λ e, is_object e = false) evs
    ∧ match node_dict (_prebuilt_libraries w) (_name cls) vk !! linktype with
      | Some cached => l = cached ∧ library_calls evs = 0
      | None => library_calls evs = 1
      end.
Proof.
  intros Hdir.
  destruct (node_dict (_prebuilt_libraries w) (_name cls) vk !! linktype)
    as [cached|] eqn:Hl.
  - rewrite (library_for_hit _ _ _ _ _ _ _ _ cached Hl).
    eexists cached, _, _. split_and!; try done. by repeat constructor.
  - destruct (library_for_miss cls env vk library_name linktype final_dir objects
                w Hl Hdir) as (l & w' & Hrun & Hstored & Hobj & evs & Hev & ->).
    exists l, w'. eexists. split_and!; try done.
    + by destruct (bool_decide (linktype = "shared")); repeat constructor.
    + by destruct (bool_decide (linktype = "shared")).
Qed.

End library_phase.

Section idempotent_artifacts.
Context `{Host}.

(** A call that has something to build in a complete environment, as a
    whole. *)
Lemma run_call_spec (c : call) (w : world) :
  env_complete (c_env c) →
  buildable c →
  valid_sources c →
  ∃ l wb final_dir objects evs,
    objects_of (c_cls c) (c_self c) (c_env c) (c_sources c) (call_linktype c) w
    = (wb, Returns (call_variant c, final_dir, objects))
    ∧ (run_call c w).2 = Returns (Some l)
    ∧ (∀ i s, call_sources c !! i = Some s →
         ∃ n, objects !! i = Some n
              ∧ node_dict (_prebuilt_objects (run_call c w).1) (_name (c_cls c))
                  (call_variant c) !! object_key c s = Some n)
    ∧ node_dict (_prebuilt_libraries (run_call c w).1) (_name (c_cls c))
        (call_variant c) !! call_linktype c = Some l
    ∧ events (run_call c w).1 = events w ++ evs
    ∧ (∀ sh p s n, Object sh p s n ∈ evs →
         node_dict (_prebuilt_objects w) (_name (c_cls c)) (call_variant c)
           !! object_key c s = None)
    ∧ match node_dict (_prebuilt_libraries w) (_name (c_cls c)) (call_variant c)
              !! call_linktype c with
      | Some cached => l = cached ∧ library_calls evs = 0
      | None => library_calls evs = 1
      end.
Proof.
  intros Hc Hb Hv.
  destruct (run_call_objects c w Hc Hb Hv)
    as (wb & objects & final_dir & library_name & Hobjects & Hrun & Hns & Hle
        & Hlib & evs1 & Hev1 & Hall1).
  destruct (library_for_spec (c_cls c) (c_env c) (call_variant c) library_name
              (call_linktype c) final_dir objects wb)
    as (l & w' & evs2 & Hrun2 & Hstored & Hobj & Hev2 & Hall2 & Hcount).
  { apply Hc. by repeat constructor. }
  rewrite Hrun, Hrun2. cbn [fst snd].
  exists l, wb, final_dir, objects, (evs1 ++ evs2). split_and!; try done.
  - intros i s Hs. rewrite Hobj. by apply Hns.
  - by rewrite Hev2, Hev1, <- app_assoc.
  - intros sh p s n [Hin|Hin]%elem_of_app.
    + rewrite Forall_forall in Hall1. by eapply Hall1.
    + rewrite Forall_forall in Hall2. by apply Hall2 in Hin.
  - rewrite Hlib in Hcount. rewrite library_calls_app.
    assert (library_calls evs1 = 0) as ->.
    { apply library_calls_none. eapply Forall_impl; [exact Hall1 |]. by intros e [? _]. }
    done.
Qed.

(** C1: let a call that has something to build be followed, after any number
    of other calls, by a second one for the same dependency name and the
    same variant key, both in environments that define the configuration keys
    and on sources that all have a path, and let a source of the first and a
    source of the second have the same relative object path. Then the node that the first
    call left in the object cache under that path is the node the second
    call takes for its source, it is still the cached one afterwards, and the
    second call does not run the object builder for any source with that
    path. *)
Theorem object_node_reused (c1 c2 : call) (between : list call) (w0 : world)
    (s1 s2 : string) :
  env_complete (c_env c1) → buildable c1 → valid_sources c1 →
  env_complete (c_env c2) → buildable c2 → valid_sources c2 →
  _name (c_cls c1) = _name (c_cls c2) →
  call_variant c1 = call_variant c2 →
  s1 ∈ call_sources c1 →
  s2 ∈ call_sources c2 →
  object_key c1 s1 = object_key c2 s2 →
  let w1 := (run_call c1 w0).1 in
  let w := run_calls between w1 in
  let w2 := (run_call c2 w).1 in
  ∃ n : node,
    node_dict (_prebuilt_objects w1) (_name (c_cls c1)) (call_variant c1)
      !! object_key c1 s1 = Some n
    ∧ (∃ wb final_dir objects,
         objects_of (c_cls c2) (c_self c2) (c_env c2) (c_sources c2)
           (call_linktype c2) w
         = (wb, Returns (call_variant c2, final_dir, objects))
         ∧ ∀ i, call_sources c2 !! i = Some s2 → objects !! i = Some n)
    ∧ (∃ l, (run_call c2 w).2 = Returns (Some l))
    ∧ node_dict (_prebuilt_objects w2) (_name (c_cls c2)) (call_variant c2)
        !! object_key c2 s2 = Some n
    ∧ (∀ sh p s m, Object sh p s m ∈ new_events w w2 →
         object_key c2 s ≠ object_key c2 s2).
Proof.
  intros Hc1 Hb1 Hv1 Hc2 Hb2 Hv2 Hname Hvariant Hs1 Hs2 Hkey. cbn zeta.
  destruct (run_call_spec c1 w0 Hc1 Hb1 Hv1)
    as (l1 & wb1 & fd1 & objs1 & evs1 & _ & _ & Hns1 & _).
  apply list_elem_of_lookup in Hs1 as [i1 Hi1].
  destruct (Hns1 i1 s1 Hi1) as (n & _ & Hn1).
  set (w1 := (run_call c1 w0).1) in *.
  set (w := run_calls between w1).
  assert (node_dict (_prebuilt_objects w) (_name (c_cls c2)) (call_variant c2)
            !! object_key c2 s2 = Some n) as Hn.
  { rewrite <- Hname, <- Hvariant, <- Hkey.
    by apply (extends_run_calls between w1). }
  destruct (run_call_spec c2 w Hc2 Hb2 Hv2)
    as (l2 & wb2 & fd2 & objs2 & evs2 & Hobjects2 & Hret2 & Hns2 & _ & Hev2 & Hfree2 & _).
  assert (node_dict (_prebuilt_objects (run_call c2 w).1) (_name (c_cls c2))
            (call_variant c2) !! object_key c2 s2 = Some n) as Hn2.
  { by apply (growing_build_library_from_source _ _ _ _ _ _ w). }
  exists n. split_and!.
  - done.
  - exists wb2, fd2, objs2. split; [done |].
    intros i Hi. destruct (Hns2 i s2 Hi) as (n' & Hobj & Hn'). congruence.
  - by exists l2.
  - done.
  - intros sh p s m Hin Heq. rewrite (new_events_app _ _ _ Hev2) in Hin.
    apply Hfree2 in Hin. congruence.
Qed.

End idempotent_artifacts.

(** ** The calls of the examples *)

Lemma env_complete_check (env : Env) :
  forallb (λ key, bool_decide (is_Some (vars env !! key))) build_keys = true →
  env_complete env.
Proof.
  intros Hall key Hkey. rewrite forallb_forall in Hall.
  apply list_elem_of_In in Hkey. apply (bool_decide_unpack _).
  by rewrite (Hall key Hkey).
Qed.

Lemma valid_sources_check (c : call) :
  forallb (λ s, negb (String.eqb s "")) (call_sources c) = true → valid_sources c.
Proof.
  intros Hall Hin. rewrite forallb_forall in Hall.
  apply list_elem_of_In in Hin. by specialize (Hall "" Hin).
Qed.

(** The example of the specification: Boost, shared, three sources. *)
Example boost_shared_library :
  let run := @run_call posix_host (boost_call "gcc/release" boost_sources)
               initial_world in
  run.2 = Returns (Some 4)
  ∧ events run.1
    = [Log DEBUG "build_dir for [{}] = [{}]" ["boost"; "_build/boost/gcc/release/working"];
       Log DEBUG "final_dir for [{}] = [{}]" ["boost"; "_build/boost/gcc/release/final"];
       Object true "_build/boost/gcc/release/working/libs/system/src/error_code.os"
         "/opt/boost/libs/system/src/error_code.cpp" 0;
       Object true "_build/boost/gcc/release/working/libs/filesystem/src/path.os"
         "/opt/boost/libs/filesystem/src/path.cpp" 1;
       Object true "_build/boost/gcc/release/working/libs/filesystem/src/operations.os"
         "/opt/boost/libs/filesystem/src/operations.cpp" 2;
       Library true "boost" [0; 1; 2] "_build/boost/gcc/release/final" 3;
       Install "/work/_build/final" 3 4].
Proof. vm_compute. done. Qed.

Lemma object_node_reused_witness :
  let first := boost_call "gcc/release" boost_sources in
  let other := boost_call "gcc/debug" boost_sources in
  let second := boost_call "gcc/release" ["/opt/boost/libs/filesystem/src/path.cpp"] in
  let w1 := (@run_call posix_host first initial_world).1 in
  let w := @run_calls posix_host [other] w1 in
  ∃ n : node,
    node_dict (_prebuilt_objects w1) "boost" "gcc/release"
      !! "libs/filesystem/src/path.os" = Some n
    ∧ node_dict (_prebuilt_objects (@run_call posix_host second w).1) "boost"
        "gcc/release" !! "libs/filesystem/src/path.os" = Some n
    ∧ ∀ sh p s m,
        Object sh p s m ∈ new_events w (@run_call posix_host second w).1 →
        @object_key posix_host second s ≠ "libs/filesystem/src/path.os".
Proof.
  cbn zeta.
  destruct (@object_node_reused posix_host
              (boost_call "gcc/release" boost_sources)
              (boost_call "gcc/release" ["/opt/boost/libs/filesystem/src/path.cpp"])
              [boost_call "gcc/debug" boost_sources] initial_world
              "/opt/boost/libs/filesystem/src/path.cpp"
              "/opt/boost/libs/filesystem/src/path.cpp")
    as (n & Hfirst & _ & _ & Hsecond & Hquiet).
  - apply env_complete_check. vm_compute. reflexivity.
  - vm_compute. reflexivity.
  - apply valid_sources_check. vm_compute. reflexivity.
  - apply env_complete_check. vm_compute. reflexivity.
  - vm_compute. reflexivity.
  - apply valid_sources_check. vm_compute. reflexivity.
  - reflexivity.
  - reflexivity.
  - apply list_elem_of_In. vm_compute. tauto.
  - apply list_elem_of_In. vm_compute. tauto.
  - vm_compute. reflexivity.
  - exists n. split_and!; [exact Hfirst | exact Hsecond | exact Hquiet].
Defined.

(** ** Further properties: the caches of [lazy_create_node] *)

(** X1: after [lazy_create_node] the cache has a dictionary for the class
    name and in it one for the variant key; no entry of any inner dictionary
    has changed, the other names are as they were, and a second call changes
    nothing. *)
Theorem lazy_create_node_creates (cls : base) (variant_key : string) (c : node_cache) :
  (∃ by_variant, lazy_create_node cls variant_key c !! _name cls = Some by_variant
                 ∧ is_Some (by_variant !! variant_key))
  ∧ (∀ name vk, node_dict (lazy_create_node cls variant_key c) name vk
                = node_dict c name vk)
  ∧ (∀ name, name ≠ _name cls → lazy_create_node cls variant_key c !! name = c !! name)
  ∧ lazy_create_node cls variant_key (lazy_create_node cls variant_key c)
    = lazy_create_node cls variant_key c.
Proof.
  assert (∃ by_variant, lazy_create_node cls variant_key c !! _name cls = Some by_variant
                        ∧ is_Some (by_variant !! variant_key)) as Hthere.
  { unfold lazy_create_node.
    destruct (c !! _name cls) as [by_variant|] eqn:Hc.
    - rewrite Hc. cbn. destruct (by_variant !! variant_key) as [d|] eqn:Hv.
      + exists by_variant. by rewrite Hc, Hv.
      + eexists. rewrite lookup_insert_eq. split; [done |].
        by rewrite lookup_insert_eq.
    - rewrite lookup_insert_eq. cbn. rewrite lookup_empty.
      eexists. rewrite lookup_insert_eq. split; [done |].
      by rewrite lookup_insert_eq. }
  split_and!.
  - exact Hthere.
  - intros name vk. apply node_dict_lazy.
  - intros name Hne. unfold lazy_create_node.
    destruct (c !! _name cls) as [by_variant|] eqn:Hc.
    + rewrite Hc. cbn. destruct (by_variant !! variant_key); [done |].
      by rewrite lookup_insert_ne.
    + rewrite lookup_insert_eq. cbn. rewrite lookup_empty.
      by rewrite !lookup_insert_ne.
  - destruct Hthere as (by_variant & Hname & [d Hd]).
    unfold lazy_create_node at 1. rewrite Hname. cbv zeta. rewrite ?Hname. cbn.
    by rewrite Hd.
Qed.

(** ** Further properties: locations *)

Section more_locations.
Context `{Host}.

(** [location_id] changes the state only when it logs that there is no
    location. *)
Lemma location_id_some cls env w w' id :
  location_id cls env w = (w', Returns (Some id)) → w' = w.
Proof.
  unfold location_id, env_item, logger, emit, bind, ret, raise.
  repeat case_match; intros; simplify_eq; done.
Qed.

(** The outcome of [location_id] does not depend on the state, and the
    state changes by the one debug record at most. *)
Lemma location_id_shape cls env :
  ∃ (r : outcome (option (string * str_or_none))) (logs : bool),
    ∀ w, location_id cls env w
         = ((if logs
             then (logger DEBUG
                     "No location specified for dependency [{}]. Dependency not available."
                     [_name cls] w).1
             else w), r).
Proof.
  destruct (truthy (get_option env (_name cls +:+ "-location"))) eqn:Hcli.
  { eexists _, false. intros w.
    by apply (location_id_direct _ _ _ (get_option env (_name cls +:+ "-location")));
      rewrite ?Hcli. }
  destruct (truthy (_default_location cls)) eqn:Hdef.
  { eexists _, false. intros w.
    by apply (location_id_direct _ _ _ (_default_location cls));
      rewrite ?Hcli, ?Hdef. }
  destruct (truthy (get_option env (_name cls +:+ "-branch"))) eqn:Hbr.
  2:{ eexists _, true. intros w. by apply location_id_nothing. }
  destruct (vars env !! "branch_root") as [root|] eqn:Hroot.
  - destruct (truthy (Some root)) eqn:Hr.
    { eexists _, false. intros w.
      rewrite (location_id_fallback _ _ _ root) by done. by rewrite Hr. }
    destruct (vars env !! "thirdparty") as [t|] eqn:Htp.
    + destruct (truthy (Some t)) eqn:Ht.
      * eexists _, false. intros w.
        rewrite (location_id_fallback _ _ _ root) by done. by rewrite Hr, Htp, Ht.
      * eexists _, true. intros w.
        rewrite (location_id_fallback _ _ _ root) by done. by rewrite Hr, Htp, Ht.
    + eexists _, false. intros w.
      rewrite (location_id_fallback _ _ _ root) by done. by rewrite Hr, Htp.
  - eexists _, false. intros w. unfold location_id, env_item. rewrite Hroot.
    by settle.
Qed.

Lemma location_id_anywhere cls env w w' id :
  (location_id cls env w).2 = Returns (Some id) →
  location_id cls env w' = (w', Returns (Some id)).
Proof.
  destruct (location_id_shape cls env) as (r & logs & Hshape).
  rewrite (Hshape w). cbn. intros ->.
  pose proof (Hshape w') as Hrun.
  destruct logs; [| done].
  pose proof (location_id_some _ _ _ _ _ Hrun) as Hsame.
  exfalso. apply (f_equal (λ x, length (events x))) in Hsame.
  cbn in Hsame. rewrite length_app in Hsame. cbn in Hsame. lia.
Qed.

Lemma get_location_new cls env w location branch l :
  location_id cls env w = (w, Returns (Some (location, branch))) →
  _cached_locations w !! (location, branch) = None →
  Location_new env location branch (_extra_sub_path cls) = inr l →
  _get_location cls env w = ((cache_location (location, branch) l w).1, Returns (Some l)).
Proof.
  intros Hid Hcache Hnew. unfold _get_location, bind, cached_location.
  rewrite Hid, Hcache, Hnew. cbn. by rewrite lookup_insert_eq.
Qed.

Lemma get_location_cached cls env w location branch l :
  location_id cls env w = (w, Returns (Some (location, branch))) →
  _cached_locations w !! (location, branch) = Some l →
  _get_location cls env w = (w, Returns (Some l)).
Proof.
  intros Hid Hcache. unfold _get_location, bind, cached_location.
  by rewrite Hid, Hcache.
Qed.

(** X2: a location, once resolved, is resolved for every dependency class.
    When [_get_location] finds no cached location for the id and the
    constructor succeeds, it caches and returns the new location; from then
    on [_get_location] of any class and environment with the same
    [(location, branch)] returns that location and leaves the state alone,
    whatever that class's extra sub path is and whatever the constructor
    would do now. *)
Theorem resolved_location_is_shared cls env w location branch l :
  (location_id cls env w).2 = Returns (Some (location, branch)) →
  _cached_locations w !! (location, branch) = None →
  Location_new env location branch (_extra_sub_path cls) = inr l →
  (_get_location cls env w).2 = Returns (Some l)
  ∧ _cached_locations (_get_location cls env w).1
    = <[(location, branch) := l]> (_cached_locations w)
  ∧ events (_get_location cls env w).1 = events w
  ∧ ∀ cls' env',
      (location_id cls' env' w).2 = Returns (Some (location, branch)) →
      _get_location cls' env' (_get_location cls env w).1
      = ((_get_location cls env w).1, Returns (Some l)).
Proof.
  intros Hid Hcache Hnew.
  pose proof (location_id_anywhere _ _ _ w _ Hid) as Hid'.
  rewrite (get_location_new _ _ _ _ _ _ Hid' Hcache Hnew). cbn.
  split_and!; try done.
  intros cls' env' Hid2. apply (get_location_cached _ _ _ location branch).
  - by apply (location_id_anywhere _ _ w).
  - cbn. by rewrite lookup_insert_eq.
Qed.

(** X3: a failed resolution is not remembered. When the constructor raises,
    the location cache stays as it is, so the next call asks the constructor
    again; a [LocationException] becomes one error record and the result
    [None], for [create] too, and any other exception leaves [_get_location]
    and [create] as it is, with nothing logged. *)
Theorem failed_location_not_cached cls env w location branch e :
  (location_id cls env w).2 = Returns (Some (location, branch)) →
  _cached_locations w !! (location, branch) = None →
  Location_new env location branch (_extra_sub_path cls) = inl e →
  _cached_locations (_get_location cls env w).1 = _cached_locations w
  ∧ match e with
    | LocationException error =>
      (_get_location cls env w).2 = Returns None
      ∧ (∃ fmt args, events (_get_location cls env w).1 = events w ++ [Log ERROR fmt args])
      ∧ (create cls env w).2 = Returns (cls, None)
    | _ =>
      _get_location cls env w = (w, Raises e) ∧ create cls env w = (w, Raises e)
    end.
Proof.
  intros Hid Hcache Hnew.
  pose proof (location_id_anywhere _ _ _ w _ Hid) as Hid'.
  assert (_get_location cls env w
          = match e with
            | LocationException error =>
              ((logger ERROR
                  "Could not get location for [{}] at [{}] with branch [{}] and extra sub path [{}]. Failed with error [{}]"
                  [_name cls; location; str branch; str (_extra_sub_path cls); error] w).1,
               Returns None)
            | _ => (w, Raises e)
            end) as Hget.
  { unfold _get_location, bind, cached_location. rewrite Hid', Hcache, Hnew.
    by destruct e. }
  unfold create, bind. rewrite Hget.
  destruct e; cbn; split_and!; try done. by eexists _, _.
Qed.

(** X4: the roots are read from the environment without a default. With a
    branch and neither option nor class default, a missing [branch_root]
    raises [KeyError], and so does a missing [thirdparty] when the branch
    root is empty; [_get_location] and [create] pass the exception on and the
    state is untouched. *)
Theorem missing_root_raises cls env w :
  truthy (get_option env (_name cls +:+ "-location")) = false →
  truthy (_default_location cls) = false →
  truthy (get_option env (_name cls +:+ "-branch")) = true →
  vars env !! "branch_root" = None
  ∨ (vars env !! "branch_root" = Some "" ∧ vars env !! "thirdparty" = None) →
  let key := match vars env !! "branch_root" with
             | Some _ => "thirdparty"
             | None => "branch_root"
             end in
  location_id cls env w = (w, Raises (KeyError key))
  ∧ _get_location cls env w = (w, Raises (KeyError key))
  ∧ create cls env w = (w, Raises (KeyError key)).
Proof.
  intros Hcli Hdef Hbr Hmissing. cbn zeta.
  assert (location_id cls env w
          = (w, Raises (KeyError match vars env !! "branch_root" with
                                 | Some _ => "thirdparty"
                                 | None => "branch_root"
                                 end))) as Hid.
  { destruct Hmissing as [Hroot | [Hroot Htp]].
    - unfold location_id, env_item. rewrite Hroot. by settle.
    - rewrite (location_id_fallback _ _ _ "") by done. cbn. by rewrite Htp, Hroot. }
  split_and!; [done | |].
  - unfold _get_location, bind. by rewrite Hid.
  - unfold create, _get_location, bind. by rewrite Hid.
Qed.

End more_locations.

Lemma resolved_location_is_shared_witness :
  let env := make_env [("boost-location", "~/boost")] [] in
  let w1 := (@_get_location posix_host boost env initial_world).1 in
  let other := location_dependency "asio" (Some "/home/dev/boost") None None
                 (Some "asio") None None in
  (@_get_location posix_host boost env initial_world).2
  = Returns (Some (location_at "/home/dev/boost" "local"))
  ∧ @_get_location posix_host other (make_env [] []) w1
    = (w1, Returns (Some (location_at "/home/dev/boost" "local"))).
Proof.
  cbn zeta.
  pose proof (@resolved_location_is_shared posix_host boost
                (make_env [("boost-location", "~/boost")] []) initial_world
                "/home/dev/boost" None (location_at "/home/dev/boost" "local")
                eq_refl eq_refl eq_refl) as (Hfirst & _ & _ & Hshared).
  split; [exact Hfirst |].
  exact (Hshared (location_dependency "asio" (Some "/home/dev/boost") None None
                    (Some "asio") None None) (make_env [] []) eq_refl).
Defined.

Lemma failed_location_not_cached_witness :
  let r := @_get_location (posix "/home/dev" "/work" unreachable) boost_with_include
             (make_env [] []) initial_world in
  _cached_locations r.1 = ∅ ∧ r.2 = Returns None.
Proof.
  cbn zeta.
  pose proof (@failed_location_not_cached (posix "/home/dev" "/work" unreachable)
                boost_with_include (make_env [] []) initial_world "/opt/boost" None
                (LocationException "unreachable") eq_refl eq_refl eq_refl)
    as (Hcache & Hnone & _).
  split; [exact Hcache | exact Hnone].
Defined.

Lemma missing_root_raises_witness :
  @create posix_host boost (make_env [("boost-branch", "trunk")] []) initial_world
  = (initial_world, Raises (KeyError "branch_root"))
  ∧ @create posix_host boost
      (make_env [("boost-branch", "trunk")] [("branch_root", "")]) initial_world
    = (initial_world, Raises (KeyError "thirdparty")).
Proof.
  split.
  - pose proof (@missing_root_raises posix_host boost
                  (make_env [("boost-branch", "trunk")] []) initial_world
                  eq_refl eq_refl eq_refl (or_introl eq_refl)) as (_ & _ & Hcreate).
    exact Hcreate.
  - pose proof (@missing_root_raises posix_host boost
                  (make_env [("boost-branch", "trunk")] [("branch_root", "")])
                  initial_world eq_refl eq_refl eq_refl
                  (or_intror (conj eq_refl eq_refl))) as (_ & _ & Hcreate).
    exact Hcreate.
Defined.

(** ** Further properties: [create] *)

Section more_create.
Context `{Host}.

(** A successful [create], taken apart. *)
Lemma create_some cls env w w' cls' self :
  create cls env w = (w', Returns (cls', Some self)) →
  _get_location cls env w = (w', Returns (Some (Self._location self)))
  ∧ cls' = assemble cls env
  ∧ self = __init__ env (Self._location self)
             (as_list (_includes cls')) (as_list (_sys_includes cls'))
             (_source_path cls') (_linktype cls').
Proof.
  unfold create, bind.
  destruct (_get_location cls env w) as [w1 [[location|]|e]]; cbn;
    intros [= <- <- <-]; done.
Qed.

(** X5: for the link type and the source path the class comes before the
    command line, unlike for the location. The instance [create] returns has
    the link type of the class when the class has one, else that of the
    [-linktype] option, else [static], and never an empty one; its source
    path is that of the class when the class has one, else that of the
    [-source-path] option, made absolute against the local path of the
    location, and it has none when neither is given. *)
Theorem create_prefers_class_settings cls env w w' cls' self :
  create cls env w = (w', Returns (cls', Some self)) →
  Self._linktype self
  = (if truthy (_linktype cls) then as_str (_linktype cls)
     else if truthy (get_option env (_name cls +:+ "-linktype"))
          then as_str (get_option env (_name cls +:+ "-linktype"))
          else "static")
  ∧ Self._linktype self ≠ ""
  ∧ Self._source_path self
    = (if truthy (_source_path cls)
       then Some (abs_or_local (Self._location self) (as_str (_source_path cls)))
       else if truthy (get_option env (_name cls +:+ "-source-path"))
            then Some (abs_or_local (Self._location self)
                         (as_str (get_option env (_name cls +:+ "-source-path"))))
            else None).
Proof.
  intros (_ & -> & ->)%create_some. rewrite assemble_fields.
  cbn -[truthy abs_or_local].
  destruct (truthy (_linktype cls)) eqn:Hl, (truthy (_source_path cls)) eqn:Hp;
    rewrite ?Hl, ?Hp; cbn -[truthy abs_or_local];
    destruct (truthy (get_option env (_name cls +:+ "-linktype"))) eqn:Hlo;
    destruct (truthy (get_option env (_name cls +:+ "-source-path"))) eqn:Hpo;
    cbn -[truthy abs_or_local]; split_and!; try done;
    first [ by destruct (_linktype cls) as [[|]|]
          | by destruct (get_option env (_name cls +:+ "-linktype")) as [[|]|] ].
Qed.

(** X6: the first environment settles the class. After a [create] under
    [env1] that found a link type (in the class or in the option), a later
    [create] under any other environment gives its instance the same link
    type, whatever that environment's option says, and likewise the source
    path of the class no longer changes once it is set. *)
Theorem first_environment_wins cls env1 env2 w w1 w2 cls1 cls2 first second :
  create cls env1 w = (w1, Returns (cls1, Some first)) →
  create cls1 env2 w1 = (w2, Returns (cls2, Some second)) →
  (truthy (_linktype cls1) = true →
   Self._linktype second = Self._linktype first ∧ _linktype cls2 = _linktype cls1)
  ∧ (truthy (_source_path cls1) = true → _source_path cls2 = _source_path cls1).
Proof.
  intros Hfirst Hsecond.
  apply create_some in Hfirst as (_ & Hcls1 & Hself1).
  apply create_some in Hsecond as (_ & -> & Hself2).
  split.
  - intros Ht.
    assert (_linktype (assemble cls1 env2) = _linktype cls1) as Hsame.
    { rewrite (assemble_fields cls1 env2). cbn -[truthy]. by rewrite Ht. }
    split; [| done].
    rewrite Hself2, Hself1. cbn -[truthy]. by rewrite Hsame.
  - intros Ht. rewrite (assemble_fields cls1 env2). cbn -[truthy]. by rewrite Ht.
Qed.

(** X7: the include paths of the first instance of a class. The class list
    holds the [-include] option and then the default include directory, each
    if given, and the system list the same from [-sys-include]; the instance
    gets them made absolute. The local path of the location stands in only
    when all four are missing: with a system include directory and no
    include directory the include list of the instance is empty. *)
Theorem first_create_includes cls env w w' cls' self :
  truthy_list (_includes cls) = false →
  truthy_list (_sys_includes cls) = false →
  create cls env w = (w', Returns (cls', Some self)) →
  let includes := kept [get_option env (_name cls +:+ "-include"); _default_include cls] in
  let sys_includes :=
    kept [get_option env (_name cls +:+ "-sys-include"); _default_sys_include cls] in
  Self._sys_includes self = abs_or_local (Self._location self) <$> sys_includes
  ∧ Self._includes self
    = match includes, sys_includes with
      | [], [] => abs_or_local (Self._location self)
                    <$> kept [Some (local (Self._location self))]
      | _, _ => abs_or_local (Self._location self) <$> includes
      end.
Proof.
  intros Hinc Hsys (_ & -> & ->)%create_some. cbn zeta.
  rewrite assemble_fields. cbn -[truthy kept collect_includes].
  rewrite Hinc, Hsys. rewrite !collect_includes_kept.
  destruct (get_option env (_name cls +:+ "-include")) as [[|]|],
    (_default_include cls) as [[|]|],
    (get_option env (_name cls +:+ "-sys-include")) as [[|]|],
    (_default_sys_include cls) as [[|]|]; cbn; by rewrite ?collect_includes_kept.
Qed.

End more_create.

(** ** Further properties: [build_library_from_source] *)

Lemma same_elsewhere_refl name vk w : same_elsewhere name vk w w.
Proof. by intros ???. Qed.

Lemma same_elsewhere_trans name vk w1 w2 w3 :
  same_elsewhere name vk w1 w2 → same_elsewhere name vk w2 w3 →
  same_elsewhere name vk w1 w3.
Proof.
  intros H12 H23 name' vk' Hne.
  destruct (H12 name' vk' Hne) as [Ho Hl]. destruct (H23 name' vk' Hne) as [Ho' Hl'].
  split; congruence.
Qed.

Lemma node_dict_set_elsewhere c name vk key n name' vk' :
  (name', vk') ≠ (name, vk) →
  node_dict (node_dict_set c name vk key n) name' vk' = node_dict c name' vk'.
Proof.
  intros Hne. apply map_eq. intros key'. apply node_dict_set_ne. congruence.
Qed.

Lemma confined_ret {A} name vk (a : A) : confined name vk (ret a).
Proof. intros w. apply same_elsewhere_refl. Qed.

Lemma confined_raise {A} name vk (e : exn) : confined name vk (@raise A e).
Proof. intros w. apply same_elsewhere_refl. Qed.

Lemma confined_bind {A B} name vk (m : M A) (k : A → M B) :
  confined name vk m →
  (∀ w a, (m w).2 = Returns a → confined name vk (k a)) →
  confined name vk (bind m k).
Proof.
  intros Hm Hk w. unfold bind. specialize (Hm w). specialize (Hk w).
  destruct (m w) as [w' [a|e]]; [| done].
  eapply same_elsewhere_trans; [exact Hm | by apply Hk].
Qed.

Lemma confined_env_item name vk env key : confined name vk (env_item env key).
Proof.
  unfold env_item. destruct (vars env !! key); [apply confined_ret | apply confined_raise].
Qed.

Lemma confined_emit name vk e : confined name vk (emit e).
Proof. by intros w ???. Qed.

Lemma confined_builder name vk record : confined name vk (builder record).
Proof. by intros w ???. Qed.

Lemma confined_lazy_objects name vk cls variant_key :
  confined name vk (update_objects (lazy_create_node cls variant_key)).
Proof. intros w name' vk' _. cbn. by rewrite node_dict_lazy. Qed.

Lemma confined_lazy_libraries name vk cls variant_key :
  confined name vk (update_libraries (lazy_create_node cls variant_key)).
Proof. intros w name' vk' _. cbn. by rewrite node_dict_lazy. Qed.

Lemma confined_if {A} name vk (b : bool) (m1 m2 : M A) :
  confined name vk m1 → confined name vk m2 → confined name vk (if b then m1 else m2).
Proof. by destruct b. Qed.

Lemma bind_returns {A B} (m : M A) (k : A → M B) w b :
  (bind m k w).2 = Returns b →
  ∃ w' a, m w = (w', Returns a) ∧ (k a w').2 = Returns b.
Proof.
  unfold bind. destruct (m w) as [w' [a|e]]; [| done]. intros Hk. by exists w', a.
Qed.

Lemma raises_only_ret {A} P (a : A) : raises_only P (ret a).
Proof. by intros w e. Qed.

Lemma raises_only_bind {A B} P (m : M A) (k : A → M B) :
  raises_only P m → (∀ a, raises_only P (k a)) → raises_only P (bind m k).
Proof.
  intros Hm Hk w e. unfold bind. specialize (Hm w).
  destruct (m w) as [w' [a|e']]; cbn in *.
  - apply Hk.
  - intros [= <-]. by apply Hm.
Qed.

Lemma raises_only_bind_returns {A B} (P : exn → Prop) (m : M A) (k : A → M B) :
  raises_only P m →
  (∀ w a, (m w).2 = Returns a → raises_only P (k a)) →
  raises_only P (bind m k).
Proof.
  intros Hm Hk w e. unfold bind. specialize (Hm w). specialize (Hk w).
  destruct (m w) as [w' [a|e']]; cbn in *.
  - by apply Hk.
  - intros [= <-]. by apply Hm.
Qed.

Lemma raises_only_weaken {A} (P Q : exn → Prop) (m : M A) :
  raises_only P m → (∀ e, P e → Q e) → raises_only Q m.
Proof. intros Hm HPQ w e He. by apply HPQ, (Hm w). Qed.

Lemma raises_only_env_item env key :
  key ∈ build_keys → raises_only (missing_key env) (env_item env key).
Proof.
  intros Hkey w e. unfold env_item.
  destruct (vars env !! key) eqn:Hv; cbn; [done |].
  intros [= <-]. by exists key.
Qed.

Lemma raises_only_emit P e : raises_only P (emit e).
Proof. by intros w e'. Qed.

Lemma raises_only_update_objects P f : raises_only P (update_objects f).
Proof. by intros w e'. Qed.

Lemma raises_only_update_libraries P f : raises_only P (update_libraries f).
Proof. by intros w e'. Qed.

Lemma raises_only_if {A} P (b : bool) (m1 m2 : M A) :
  raises_only P m1 → raises_only P m2 → raises_only P (if b then m1 else m2).
Proof. by destruct b. Qed.

Section confinement.
Context `{Host}.

Lemma confined_object_for cls vk local_dir build_dir sfx shared source :
  confined (_name cls) vk (object_for cls vk local_dir build_dir sfx shared source).
Proof.
  intros w. destruct (decide (source = "")) as [-> | Hsource].
  { rewrite object_for_empty. apply same_elsewhere_refl. }
  destruct (node_dict (_prebuilt_objects w) (_name cls) vk
              !! obj_key local_dir sfx source) as [n|] eqn:Hn.
  - rewrite (object_for_hit _ _ _ _ _ _ _ _ n Hsource Hn). apply same_elsewhere_refl.
  - rewrite object_for_miss by done. intros name' vk' Hne. cbn.
    by rewrite node_dict_set_elsewhere.
Qed.

Lemma confined_objects_for cls vk local_dir build_dir sfx shared sources :
  ∀ objects,
    confined (_name cls) vk
      (objects_for cls vk local_dir build_dir sfx shared sources objects).
Proof.
  induction sources as [|source sources IH]; intros objects; cbn [objects_for].
  - apply confined_ret.
  - apply confined_bind; [apply confined_object_for | intros w n _; apply IH].
Qed.

Lemma confined_library_for cls env vk library_name linktype final_dir objects :
  confined (_name cls) vk
    (library_for cls env vk library_name linktype final_dir objects).
Proof.
  intros w.
  destruct (node_dict (_prebuilt_libraries w) (_name cls) vk !! linktype)
    as [l|] eqn:Hl.
  - rewrite (library_for_hit _ _ _ _ _ _ _ _ l Hl). by intros ???.
  - unfold library_for, bind, prebuilt_library, builder, update_libraries, env_item,
      ret, raise. cbn. rewrite Hl. cbn.
    destruct (bool_decide (linktype = "shared")); cbn.
    + destruct (vars env !! "abs_final_dir"); cbn; [| by intros ???].
      rewrite node_dict_set_eq. intros name' vk' Hne. cbn.
      by rewrite node_dict_set_elsewhere.
    + rewrite node_dict_set_eq. intros name' vk' Hne. cbn.
      by rewrite node_dict_set_elsewhere.
Qed.

(** One step of the loop raises nothing but the [ValueError] of an empty
    source. *)
Lemma object_for_raises cls vk local_dir build_dir sfx shared source w e :
  (object_for cls vk local_dir build_dir sfx shared source w).2 = Raises e →
  e = ValueError "no path specified" ∧ source = "".
Proof.
  destruct (decide (source = "")) as [-> | Hsource].
  { rewrite object_for_empty. by intros [= <-]. }
  destruct (node_dict (_prebuilt_objects w) (_name cls) vk
              !! obj_key local_dir sfx source) as [n|] eqn:Hn.
  - by rewrite (object_for_hit _ _ _ _ _ _ _ _ n Hsource Hn).
  - by rewrite object_for_miss.
Qed.

Lemma objects_for_raises cls vk local_dir build_dir sfx shared sources :
  ∀ objects w e,
    (objects_for cls vk local_dir build_dir sfx shared sources objects w).2 = Raises e →
    e = ValueError "no path specified" ∧ "" ∈ sources.
Proof.
  induction sources as [|source sources IH]; intros objects w e; cbn [objects_for].
  - done.
  - unfold bind at 1.
    destruct (object_for cls vk local_dir build_dir sfx shared source w)
      as [w1 [n|e1]] eqn:Hstep.
    + intros (-> & Hin)%IH. split; [done | by apply list_elem_of_further].
    + cbn. intros [= <-].
      pose proof (object_for_raises cls vk local_dir build_dir sfx shared source w e1)
        as Hraise.
      rewrite Hstep in Hraise. destruct (Hraise eq_refl) as [-> ->].
      split; [done | apply list_elem_of_here].
Qed.


Lemma raises_only_objects_for (P : exn → Prop) cls vk local_dir build_dir sfx shared
    sources objects :
  ("" ∈ sources → P (ValueError "no path specified")) →
  raises_only P (objects_for cls vk local_dir build_dir sfx shared sources objects).
Proof. intros HP w e (-> & Hin)%objects_for_raises. by apply HP. Qed.

Lemma raises_only_library_for cls env vk library_name linktype final_dir objects :
  raises_only (missing_key env)
    (library_for cls env vk library_name linktype final_dir objects).
Proof.
  intros w e.
  destruct (node_dict (_prebuilt_libraries w) (_name cls) vk !! linktype)
    as [l|] eqn:Hl.
  - by rewrite (library_for_hit _ _ _ _ _ _ _ _ l Hl).
  - destruct (vars env !! "abs_final_dir") as [dir|] eqn:Hdir.
    + destruct (library_for_miss cls env vk library_name linktype final_dir objects
                  w Hl) as (l & w' & -> & _); [by eexists | done].
    + unfold library_for, bind, prebuilt_library, builder, update_libraries, env_item,
        ret, raise. cbn. rewrite Hl. cbn.
      destruct (bool_decide (linktype = "shared")); cbn.
      * rewrite Hdir. cbn. intros [= <-]. exists "abs_final_dir".
        split_and!; [done | by repeat constructor | done].
      * by rewrite node_dict_set_eq.
Qed.

(** The variant key the object phase hands on is the one of the
    environment. *)
Lemma objects_of_variant cls self env sources linktype w vk final_dir objects :
  (objects_of cls self env sources linktype w).2 = Returns (vk, final_dir, objects) →
  vk = env_var env "tool_variant_dir".
Proof.
  unfold objects_of, env_var. unfold env_item at 1.
  destruct (vars env !! "tool_variant_dir") as [v|]; [| done].
  intros Hrun. apply bind_returns in Hrun as (? & ? & [= <-] & Hrun).
  repeat (apply bind_returns in Hrun as (? & ? & _ & Hrun)).
  by injection Hrun as <- _ _.
Qed.

End confinement.

Section whole_calls.
Context `{Host}.

Lemma confined_objects_of cls self env sources linktype :
  confined (_name cls) (env_var env "tool_variant_dir")
    (objects_of cls self env sources linktype).
Proof.
  unfold objects_of. apply confined_bind; [apply confined_env_item |].
  intros w v Hv.
  assert (v = env_var env "tool_variant_dir") as ->.
  { unfold env_item, env_var in *. by destruct (vars env !! "tool_variant_dir");
      cbn in *; simplify_eq. }
  repeat first
    [ apply confined_bind; [| intros ? ? _]
    | apply confined_env_item
    | apply confined_lazy_objects
    | apply confined_lazy_libraries
    | apply confined_emit
    | apply confined_if
    | apply confined_objects_for
    | apply confined_ret ].
Qed.

Lemma confined_build_library_from_source cls self env sources library_name linktype :
  confined (_name cls) (env_var env "tool_variant_dir")
    (build_library_from_source cls self env sources library_name linktype).
Proof.
  unfold build_library_from_source. apply confined_if.
  - apply confined_bind; [apply confined_emit | intros; apply confined_ret].
  - apply confined_bind; [apply confined_objects_of |].
    intros w [[vk final_dir] objects] Hr. apply objects_of_variant in Hr as ->.
    apply confined_library_for.
Qed.

Lemma raises_only_objects_of (c : call) (linktype : string) :
  raises_only (build_exception c)
    (objects_of (c_cls c) (c_self c) (c_env c) (c_sources c) linktype).
Proof.
  assert (∀ key, key ∈ build_keys →
                 raises_only (build_exception c) (env_item (c_env c) key)) as Hitem.
  { intros key Hkey. eapply raises_only_weaken;
      [by apply raises_only_env_item | by left]. }
  unfold objects_of.
  do 10 (apply raises_only_bind;
         [ first [ apply Hitem; by repeat constructor
                 | apply raises_only_update_objects
                 | apply raises_only_update_libraries
                 | apply raises_only_emit
                 | apply raises_only_if;
                   [apply Hitem; by repeat constructor | apply raises_only_ret] ]
         | intros ? ]).
  apply raises_only_bind_returns.
  - apply raises_only_if; [| apply raises_only_ret].
    apply raises_only_bind; [| intros; apply raises_only_ret].
    apply Hitem. by repeat constructor.
  - intros w sources Hsources.
    assert (sources = call_sources c) as ->.
    { unfold call_sources, env_var, env_item in *.
      destruct (truthy_list (c_sources c)); cbn in Hsources; [by simplify_eq |].
      unfold bind in Hsources.
      destruct (vars (c_env c) !! "build_dir"); cbn in Hsources; by simplify_eq. }
    apply raises_only_bind; [| intros; apply raises_only_ret].
    apply raises_only_objects_for. intros Hin. by right.
Qed.

(** A call raises nothing but the [KeyError] of a missing configuration key
    and the [ValueError] of a source without a path. *)
Lemma raises_only_build_library_from_source (c : call) :
  raises_only (build_exception c) (run_call c).
Proof.
  unfold run_call, build_library_from_source. apply raises_only_if.
  - apply raises_only_bind; [apply raises_only_emit | intros; apply raises_only_ret].
  - apply raises_only_bind; [apply raises_only_objects_of |].
    intros [[vk final_dir] objects].
    eapply raises_only_weaken; [apply raises_only_library_for | by left].
Qed.


End whole_calls.


Section builds.
Context `{Host}.



End builds.

Lemma nothing_built_refl w : nothing_built w w.
Proof. split_and!; [done.. |]. exists []. by rewrite app_nil_r. Qed.

Lemma nothing_built_trans w1 w2 w3 :
  nothing_built w1 w2 → nothing_built w2 w3 → nothing_built w1 w3.
Proof.
  intros (Hc & Hn & evs & Hev & Hall) (Hc' & Hn' & evs' & Hev' & Hall').
  split_and!.
  - intros name vk. destruct (Hc name vk), (Hc' name vk). split; congruence.
  - congruence.
  - exists (evs ++ evs'). split; [by rewrite Hev', Hev, <- app_assoc |].
    by apply Forall_app.
Qed.

Lemma idle_ret {A} (a : A) : idle (ret a).
Proof. intros w. apply nothing_built_refl. Qed.

Lemma idle_env_item env key : idle (env_item env key).
Proof.
  intros w. unfold env_item. destruct (vars env !! key); apply nothing_built_refl.
Qed.

Lemma idle_logger lv fmt args : idle (logger lv fmt args).
Proof.
  intros w. split_and!; [done.. |]. eexists. split; [done |]. by repeat constructor.
Qed.

Lemma idle_lazy_objects cls vk : idle (update_objects (lazy_create_node cls vk)).
Proof.
  intros w. split_and!; [| done |].
  - intros name vk'. cbn. by rewrite node_dict_lazy.
  - exists []. cbn. by rewrite app_nil_r.
Qed.

Lemma idle_lazy_libraries cls vk : idle (update_libraries (lazy_create_node cls vk)).
Proof.
  intros w. split_and!; [| done |].
  - intros name vk'. cbn. by rewrite node_dict_lazy.
  - exists []. cbn. by rewrite app_nil_r.
Qed.

Lemma idle_bind {A B} (m : M A) (k : A → M B) :
  idle m → (∀ a, idle (k a)) → idle (bind m k).
Proof.
  intros Hm Hk w. unfold bind. specialize (Hm w).
  destruct (m w) as [w' [a|e]]; [| done].
  eapply nothing_built_trans; [exact Hm | apply Hk].
Qed.

Lemma idle_if {A} (b : bool) (m1 m2 : M A) : idle m1 → idle m2 → idle (if b then m1 else m2).
Proof. by destruct b. Qed.

Lemma idle_when_raising_bind {A B} (m : M A) (k : A → M B) :
  idle m → (∀ a, idle_when_raising (k a)) → idle_when_raising (bind m k).
Proof.
  intros Hm Hk w e. unfold bind. specialize (Hm w).
  destruct (m w) as [w' [a|e']]; [| done].
  intros Hraise. eapply nothing_built_trans; [exact Hm | by eapply Hk].
Qed.

Lemma idle_when_raising_never {A} (m : M A) :
  raises_only (λ e, ∀ key, e ≠ KeyError key) m → idle_when_raising m.
Proof. intros Hm w key He. by destruct (Hm w _ He key). Qed.

Section errors.
Context `{Host}.

Lemma idle_when_raising_objects_of cls self env sources linktype :
  idle_when_raising (objects_of cls self env sources linktype).
Proof.
  unfold objects_of.
  repeat (apply idle_when_raising_bind;
          [ first [ apply idle_env_item | apply idle_lazy_objects
                  | apply idle_lazy_libraries | apply idle_logger
                  | apply idle_if; [apply idle_env_item | apply idle_ret]
                  | apply idle_if;
                    [ apply idle_bind; [apply idle_env_item | intros; apply idle_ret]
                    | apply idle_ret ] ]
          | intros ? ]).
  apply idle_when_raising_never.
  apply raises_only_bind; [| intros; apply raises_only_ret].
  apply raises_only_objects_for. by intros _ key.
Qed.

(** The library phase raises nothing but the [KeyError] of a missing
    [abs_final_dir]. *)
Lemma library_for_raises cls env vk library_name linktype final_dir objects w e :
  (library_for cls env vk library_name linktype final_dir objects w).2 = Raises e →
  e = KeyError "abs_final_dir" ∧ vars env !! "abs_final_dir" = None
  ∧ linktype = "shared"
  ∧ node_dict (_prebuilt_libraries w) (_name cls) vk !! linktype = None.
Proof.
  destruct (node_dict (_prebuilt_libraries w) (_name cls) vk !! linktype)
    as [l|] eqn:Hl.
  - by rewrite (library_for_hit _ _ _ _ _ _ _ _ l Hl).
  - unfold library_for, bind, prebuilt_library, builder, update_libraries, env_item,
      ret, raise. cbn. rewrite Hl. cbn.
    destruct (bool_decide (linktype = "shared")) eqn:Hshared; cbn.
    + destruct (vars env !! "abs_final_dir"); cbn.
      * by rewrite node_dict_set_eq.
      * intros [= <-]. by apply bool_decide_eq_true in Hshared.
    + by rewrite node_dict_set_eq.
Qed.



End errors.


Section more_build.
Context `{Host}.

(** X8: a node, once cached, is cached for good. Whatever calls of
    [build_library_from_source] follow, with whatever arguments and
    outcomes, an object or library node stays in its cache under its key. *)
Theorem cached_nodes_are_stable (cs : list call) (w : world) :
  (∀ name vk key (n : node),
     node_dict (_prebuilt_objects w) name vk !! key = Some n →
     node_dict (_prebuilt_objects (run_calls cs w)) name vk !! key = Some n)
  ∧ (∀ name vk key (n : node),
       node_dict (_prebuilt_libraries w) name vk !! key = Some n →
       node_dict (_prebuilt_libraries (run_calls cs w)) name vk !! key = Some n).
Proof. exact (extends_run_calls cs w). Qed.

(** X9: a call works on the dictionaries of its own dependency name and
    variant key only. Under every other name or variant both caches hold
    after the call exactly what they held before, whatever the outcome. *)
Theorem other_variants_untouched (c : call) (w : world) name vk :
  (name, vk) ≠ (_name (c_cls c), call_variant c) →
  node_dict (_prebuilt_objects (run_call c w).1) name vk
  = node_dict (_prebuilt_objects w) name vk
  ∧ node_dict (_prebuilt_libraries (run_call c w).1) name vk
    = node_dict (_prebuilt_libraries w) name vk.
Proof.
  intros Hne. by apply (confined_build_library_from_source _ _ _ _ _ _ w).
Qed.

(** X10: what [build_library_from_source] raises. Its only exceptions are
    the [KeyError] of a configuration key the environment does not define and
    the [ValueError] of [os.path.relpath] for a source without a path; the
    lookups in its own caches never fail. So a call in an environment that
    defines the eight keys, on sources that all have a path, does not
    raise. *)
Theorem what_a_call_raises (c : call) (w : world) (e : exn) :
  (run_call c w).2 = Raises e →
  ((∃ key, e = KeyError key ∧ key ∈ build_keys ∧ vars (c_env c) !! key = None)
   ∨ (e = ValueError "no path specified" ∧ "" ∈ call_sources c))
  ∧ ¬ (env_complete (c_env c) ∧ valid_sources c).
Proof.
  intros Hraise.
  pose proof (raises_only_build_library_from_source c w e Hraise) as Hkind.
  split; [exact Hkind |].
  intros [Hc Hv]. destruct Hkind as [(key & -> & Hkey & Hmissing) | [_ Hin]].
  - destruct (Hc key Hkey) as [v Hv']. congruence.
  - by apply Hv.
Qed.

(** X11: a [KeyError] for any key but [abs_final_dir] comes before anything
    is built. The call has then run no builder and changed no cache entry;
    it has logged at most. *)
Theorem key_error_before_building (c : call) (w : world) (key : string) :
  (run_call c w).2 = Raises (KeyError key) →
  key ≠ "abs_final_dir" →
  (∀ name vk,
     node_dict (_prebuilt_objects (run_call c w).1) name vk
     = node_dict (_prebuilt_objects w) name vk
     ∧ node_dict (_prebuilt_libraries (run_call c w).1) name vk
       = node_dict (_prebuilt_libraries w) name vk)
  ∧ next_node (run_call c w).1 = next_node w
  ∧ Forall (λ e, is_builder e = false) (new_events w (run_call c w).1).
Proof.
  unfold run_call, build_library_from_source.
  destruct (negb (truthy (self_source_path (c_cls c) (c_self c)))
            && negb (truthy_list (c_sources c))); [done |].
  unfold bind.
  pose proof (idle_when_raising_objects_of (c_cls c) (c_self c) (c_env c)
                (c_sources c)
                (if negb (truthy (c_linktype c)) then Self._linktype (c_self c)
                 else as_str (c_linktype c)) w) as Hidle.
  destruct (objects_of _ _ _ _ _ w) as [w1 [[[vk final_dir] objects]|e]].
  - intros Hraise%library_for_raises Hkey. destruct Hraise as ([= ->] & _). done.
  - cbn. intros [= ->] _. destruct (Hidle _ eq_refl) as (Hc & Hn & evs & Hev & Hall).
    cbn in *. split_and!; [done | done |]. by rewrite (new_events_app _ _ _ Hev).
Qed.



End more_build.

Section more_build_records.
Context `{Host}.





End more_build_records.


(** ** One library for a name, a variant and a link type *)

Section library_once.
Context `{Host}.


End library_once.


(** C2 read literally fails in two ways. For the link type [shared] what the
    call stores and returns is not the node the library builder returned
    (here 3) but the node of the install step (here 4). And the library
    builder can run more than once for one name, variant and link type: in
    an environment without [abs_final_dir] the call raises after the library
    builder has run and before anything is stored, so the same call made
    again runs it again. *)
Lemma shared_library_stores_install_node :
  let c := boost_call "gcc/release" boost_sources in
  let run := @run_call posix_host c initial_world in
  let c' := boost_call_in (env_without_abs_final_dir "gcc/release") in
  let run1 := @run_call posix_host c' initial_world in
  let run2 := @run_call posix_host c' run1.1 in
  (List.filter is_builder (new_events initial_world run.1)
   = [Object true "_build/boost/gcc/release/working/libs/system/src/error_code.os"
        "/opt/boost/libs/system/src/error_code.cpp" 0;
      Object true "_build/boost/gcc/release/working/libs/filesystem/src/path.os"
        "/opt/boost/libs/filesystem/src/path.cpp" 1;
      Object true "_build/boost/gcc/release/working/libs/filesystem/src/operations.os"
        "/opt/boost/libs/filesystem/src/operations.cpp" 2;
      Library true "boost" [0; 1; 2] "_build/boost/gcc/release/final" 3;
      Install "/work/_build/final" 3 4]
   ∧ run.2 = Returns (Some 4)
   ∧ node_dict (_prebuilt_libraries run.1) "boost" "gcc/release" !! "shared" = Some 4)
  ∧ (run1.2 = Raises (KeyError "abs_final_dir")
     ∧ library_calls (new_events initial_world run1.1) = 1
     ∧ node_dict (_prebuilt_libraries run1.1) "boost" "gcc/release" !! "shared" = None
     ∧ run2.2 = Raises (KeyError "abs_final_dir")
     ∧ library_calls (new_events run1.1 run2.1) = 1).
Proof. vm_compute. split_and!; reflexivity. Qed.

(** ** The further properties on the examples *)


Lemma create_prefers_class_settings_witness :
  let cls := location_dependency "boost" (Some "/opt/boost") None None None
               (Some "src") (Some "shared") in
  let env := make_env [("boost-linktype", "static"); ("boost-source-path", "/tmp/src")] [] in
  ∃ w' cls' self,
    @create posix_host cls env initial_world = (w', Returns (cls', Some self))
    ∧ Self._linktype self = "shared"
    ∧ Self._source_path self = Some "/opt/boost/src".
Proof.
  cbn zeta. eexists _, _, _. split; [vm_compute; reflexivity |].
  match goal with
  | |- Self._linktype ?self = _ ∧ _ =>
    pose proof (@create_prefers_class_settings posix_host
                  (location_dependency "boost" (Some "/opt/boost") None None None
                     (Some "src") (Some "shared"))
                  (make_env [("boost-linktype", "static");
                             ("boost-source-path", "/tmp/src")] [])
                  initial_world _ _ self ltac:(vm_compute; reflexivity))
      as (Hlinktype & _ & Hpath)
  end.
  split; [exact Hlinktype | exact Hpath].
Defined.

Lemma first_environment_wins_witness :
  let env1 := make_env [("boost-location", "/opt/boost"); ("boost-linktype", "shared")] [] in
  let env2 := make_env [("boost-location", "/opt/boost"); ("boost-linktype", "static")] [] in
  ∃ w1 cls1 first w2 cls2 second,
    @create posix_host boost env1 initial_world = (w1, Returns (cls1, Some first))
    ∧ @create posix_host cls1 env2 w1 = (w2, Returns (cls2, Some second))
    ∧ Self._linktype first = "shared"
    ∧ Self._linktype second = Self._linktype first.
Proof.
  cbn zeta. eexists _, _, _, _, _, _.
  split; [vm_compute; reflexivity |]. split; [vm_compute; reflexivity |].
  split; [reflexivity |].
  match goal with
  | |- Self._linktype ?second = Self._linktype ?first =>
    pose proof (@first_environment_wins posix_host boost
                  (make_env [("boost-location", "/opt/boost");
                             ("boost-linktype", "shared")] [])
                  (make_env [("boost-location", "/opt/boost");
                             ("boost-linktype", "static")] [])
                  initial_world _ _ _ _ first second
                  ltac:(vm_compute; reflexivity) ltac:(vm_compute; reflexivity))
      as (Hlinktype & _)
  end.
  exact (proj1 (Hlinktype eq_refl)).
Defined.

Lemma first_create_includes_witness :
  let cls := location_dependency "boost" (Some "/opt/boost") None (Some "sys")
               None None None in
  ∃ w' cls' self,
    @create posix_host cls (make_env [] []) initial_world
    = (w', Returns (cls', Some self))
    ∧ Self._sys_includes self = ["/opt/boost/sys"]
    ∧ Self._includes self = [].
Proof.
  cbn zeta. eexists _, _, _. split; [vm_compute; reflexivity |].
  match goal with
  | |- Self._sys_includes ?self = _ ∧ _ =>
    pose proof (@first_create_includes posix_host
                  (location_dependency "boost" (Some "/opt/boost") None (Some "sys")
                     None None None)
                  (make_env [] []) initial_world _ _ self eq_refl eq_refl
                  ltac:(vm_compute; reflexivity))
      as (Hsys & Hincludes)
  end.
  split; [exact Hsys | exact Hincludes].
Defined.

Lemma other_variants_untouched_witness :
  let w := (@run_call posix_host (boost_call "gcc/debug" boost_sources)
              initial_world).1 in
  let w' := (@run_call posix_host (boost_call "gcc/release" boost_sources) w).1 in
  node_dict (_prebuilt_objects w') "boost" "gcc/debug"
  = node_dict (_prebuilt_objects w) "boost" "gcc/debug"
  ∧ node_dict (_prebuilt_libraries w') "boost" "gcc/debug"
    = node_dict (_prebuilt_libraries w) "boost" "gcc/debug".
Proof.
  cbn zeta.
  apply (@other_variants_untouched posix_host (boost_call "gcc/release" boost_sources)).
  vm_compute. discriminate.
Defined.

Lemma what_a_call_raises_witness :
  let c := boost_call_in env_without_suffix in
  let c' := boost_call "gcc/release" [""] in
  (((∃ key, KeyError "OBJSUFFIX" = KeyError key ∧ key ∈ build_keys
            ∧ vars (c_env c) !! key = None)
    ∨ (KeyError "OBJSUFFIX" = ValueError "no path specified"
       ∧ "" ∈ call_sources c))
   ∧ ¬ (env_complete (c_env c) ∧ valid_sources c))
  ∧ (((∃ key, ValueError "no path specified" = KeyError key ∧ key ∈ build_keys
              ∧ vars (c_env c') !! key = None)
      ∨ (ValueError "no path specified" = ValueError "no path specified"
         ∧ "" ∈ call_sources c'))
     ∧ ¬ (env_complete (c_env c') ∧ valid_sources c')).
Proof.
  cbn zeta. split.
  - apply (@what_a_call_raises posix_host (boost_call_in env_without_suffix)
             initial_world).
    vm_compute. reflexivity.
  - apply (@what_a_call_raises posix_host (boost_call "gcc/release" [""])
             initial_world).
    vm_compute. reflexivity.
Defined.

Lemma key_error_before_building_witness :
  let w' := (@run_call posix_host (boost_call_in env_without_suffix) initial_world).1 in
  next_node w' = 0
  ∧ Forall (λ e, is_builder e = false) (new_events initial_world w').
Proof.
  cbn zeta.
  pose proof (@key_error_before_building posix_host (boost_call_in env_without_suffix)
                initial_world "OBJSUFFIX") as Hquiet.
  destruct Hquiet as (_ & Hnext & Hlogs);
    [vm_compute; reflexivity | discriminate |].
  split; [exact Hnext | exact Hlogs].
Defined.






(** ** Instances and the class they read from *)

Section late_settings.
Context `{Host}.

(** X17: a source path that arrives late reaches the instances made before
    it. An instance made while neither the class nor the option gave a source
    path has no source path of its own and reads the one of the class. When
    a later [create] takes a source path from its option, the class keeps
    it, and the earlier instance then has that path as given on the command
    line, while the new instance has it made absolute against the local path
    of its location. *)
Theorem late_source_path_reaches_old_instances
    cls env1 env2 w w1 w2 cls1 cls2 first second :
  create cls env1 w = (w1, Returns (cls1, Some first)) →
  create cls1 env2 w1 = (w2, Returns (cls2, Some second)) →
  truthy (_source_path cls) = false →
  truthy (get_option env1 (_name cls +:+ "-source-path")) = false →
  truthy (get_option env2 (_name cls +:+ "-source-path")) = true →
  truthy (self_source_path cls1 first) = false
  ∧ self_source_path cls2 first = get_option env2 (_name cls +:+ "-source-path")
  ∧ Self._source_path second
    = Some (abs_or_local (Self._location second)
              (as_str (get_option env2 (_name cls +:+ "-source-path")))).
Proof.
  intros Hfirst Hsecond Hclass Hopt1 Hopt2.
  apply create_some in Hfirst as (_ & -> & Hself1).
  apply create_some in Hsecond as (_ & -> & Hself2).
  assert (_source_path (assemble cls env1)
          = get_option env1 (_name cls +:+ "-source-path")) as Hpath1.
  { rewrite assemble_fields. cbn -[truthy]. by rewrite Hclass. }
  assert (_name (assemble cls env1) = _name cls) as Hname
    by by rewrite assemble_fields.
  assert (_source_path (assemble (assemble cls env1) env2)
          = get_option env2 (_name cls +:+ "-source-path")) as Hpath2.
  { rewrite (assemble_fields (assemble cls env1)). cbn -[truthy].
    by rewrite Hpath1, Hopt1, Hname. }
  assert (Self._source_path first = None) as Hown.
  { rewrite Hself1. cbn -[truthy]. by rewrite Hpath1, Hopt1. }
  unfold self_source_path. rewrite Hown, Hpath1, Hpath2. split_and!; [done.. |].
  rewrite Hself2. cbn -[truthy abs_or_local]. by rewrite Hpath2, Hopt2.
Qed.

End late_settings.

Lemma late_source_path_reaches_old_instances_witness :
  let env1 := make_env [("boost-location", "/opt/boost")] [] in
  let env2 := make_env [("boost-location", "/opt/boost");
                        ("boost-source-path", "libs")] [] in
  ∃ w1 cls1 first w2 cls2 second,
    @create posix_host boost env1 initial_world = (w1, Returns (cls1, Some first))
    ∧ @create posix_host cls1 env2 w1 = (w2, Returns (cls2, Some second))
    ∧ self_source_path cls1 first = None
    ∧ self_source_path cls2 first = Some "libs"
    ∧ Self._source_path second = Some "/opt/boost/libs".
Proof.
  cbn zeta. eexists _, _, _, _, _, _.
  split; [vm_compute; reflexivity |]. split; [vm_compute; reflexivity |].
  split; [reflexivity |].
  match goal with
  | |- self_source_path ?cls2 ?first = _ ∧ Self._source_path ?second = _ =>
    pose proof (@late_source_path_reaches_old_instances posix_host boost
                  (make_env [("boost-location", "/opt/boost")] [])
                  (make_env [("boost-location", "/opt/boost");
                             ("boost-source-path", "libs")] [])
                  initial_world _ _ _ cls2 first second
                  ltac:(vm_compute; reflexivity) ltac:(vm_compute; reflexivity)
                  eq_refl eq_refl eq_refl)
      as (_ & Hold & Hnew)
  end.
  split; [exact Hold | exact Hnew].
Defined.
